(** * A shallow embedding of the job lifecycle engine of [downloader.py]

    The Python module keeps every job in a process-wide dict
    [JOBS : Dict[str, Dict]].  Each job record is itself a Python dict
    that is mutated in place by [cancel_job], by the progress hook and by
    the download worker.  We model Python values by [pyval], a dict by an
    association list kept in insertion order (this is what [jsonify]
    serialises), and the registry by a [gmap] from job ids to records. *)

From Stdlib Require Import QArith Qabs Qround ZArith String Ascii List Sorting SpecFloat.
From stdpp Require Import base gmap strings list pretty.
Import ListNotations.

Open Scope string_scope.

(* ------------------------------------------------------------------ *)
(** ** Python values and dicts *)

(** A Python [float] is a binary64 double: [PFloat q] is a finite one
    of value [q] other than [-0.0], and [PNegZero], [PInf] and [PNaN] are
    [-0.0], the infinities and NaN. *)
Inductive pyval : Type :=
  | PNone
  | PBool (b : bool)
  | PInt (z : Z)
  | PFloat (q : Q)
  | PStr (s : string)
  | PStrList (l : list string)
  | PNegZero
  | PInf (neg : bool)
  | PNaN.

(** A Python dict, in insertion order. *)
Abbreviation pydict := (list (string * pyval)).

(** [d.get(k)] *)
Fixpoint dict_get (d : pydict) (k : string) : option pyval :=
  match d with
  | [] => None
  | (k', v) :: r => if String.eqb k k' then Some v else dict_get r k
  end.

(** [d[k] = v]: an existing key keeps its position, a new key is appended. *)
Fixpoint dict_set (d : pydict) (k : string) (v : pyval) : pydict :=
  match d with
  | [] => [(k, v)]
  | (k', v') :: r =>
      if String.eqb k k' then (k', v) :: r else (k', v') :: dict_set r k v
  end.

(** Python truthiness. *)
Definition py_truthy (v : pyval) : bool :=
  match v with
  | PNone => false
  | PBool b => b
  | PInt z => negb (Z.eqb z 0)
  | PFloat q => negb (Qeq_bool q 0)
  | PStr s => negb (String.eqb s "")
  | PStrList l => negb (Nat.eqb (length l) 0)
  | PNegZero => false
  | PInf _ | PNaN => true
  end.

(** [d.get(k)] used in a boolean context. *)
Definition dict_get_truthy (d : pydict) (k : string) : bool :=
  match dict_get d k with Some v => py_truthy v | None => false end.

(** [a or b] on optional values coming from [d.get]. *)
Definition py_or (a : option pyval) (b : pyval) : pyval :=
  match a with Some v => if py_truthy v then v else b | None => b end.

(** The in-memory registry [JOBS]. *)
Abbreviation registry := (gmap string pydict).

Definition is_terminal (st : string) : bool :=
  String.eqb st "done" || String.eqb st "error" || String.eqb st "canceled".

(* ------------------------------------------------------------------ *)
(** ** [cancel_job] and [get_job] *)

(** [cancel_job(job_id)]; returns the Python result and the new registry.
    An empty dict is falsy in Python, hence the [Some []] case. *)
Definition cancel_job (job_id : string) (jobs : registry) : bool * registry :=
  match jobs !! job_id with
  | None | Some [] => (false, jobs)
  | Some job =>
      let job := dict_set job "_cancel" (PBool true) in
      let job := dict_set job "message" (PStr "Cancel requested…") in
      (true, <[job_id := job]> jobs)
  end.

(** [get_job(job_id)]: the record itself, as served by
    [GET /api/jobs/<id>] and the push stream through [jsonify]/[json.dumps]. *)
Definition get_job (job_id : string) (jobs : registry) : option pydict :=
  jobs !! job_id.

(* ------------------------------------------------------------------ *)
(** ** [_format_string] *)

Definition _format_string (media_type : string) (height : option Z) : string :=
  if String.eqb media_type "audio" then "bestaudio/best"
  else match height with
       | None => "bv*+ba/b"
       | Some h => "bv*[height=" +:+ pretty h +:+ "]+ba/b[height=" +:+ pretty h +:+ "]"
       end.

(* ------------------------------------------------------------------ *)
(** ** [safe_folder]

    The source replaces each maximal run of the characters backslash,
    slash, colon, star, question mark, double quote, less-than,
    greater-than and bar by an underscore, strips, and falls back to
    the placeholder Untitled.
    Text is modelled as ASCII; [strip] removes the characters for which
    Python's [str.isspace] holds in that range (9-13, 28-32). *)

Definition is_bad_char (c : ascii) : bool :=
  match nat_of_ascii c with
  | 92%nat | 47%nat | 58%nat | 42%nat | 63%nat | 34%nat | 60%nat | 62%nat | 124%nat => true
  | _ => false
  end.

(** [re.sub] with the [+] quantifier: a maximal run of bad characters
    becomes a single ["_"]; [in_run] records that we are inside a run. *)
Fixpoint sub_bad_runs (in_run : bool) (s : string) : string :=
  match s with
  | EmptyString => EmptyString
  | String c r =>
      if is_bad_char c then
        if in_run then sub_bad_runs true r else String "_" (sub_bad_runs true r)
      else String c (sub_bad_runs false r)
  end.

Definition py_isspace (c : ascii) : bool :=
  let n := nat_of_ascii c in
  (((9 <=? n) && (n <=? 13)) || ((28 <=? n) && (n <=? 32)))%nat.

Fixpoint lstrip (s : string) : string :=
  match s with
  | EmptyString => EmptyString
  | String c r => if py_isspace c then lstrip r else s
  end.

Definition string_rev (s : string) : string :=
  string_of_list_ascii (rev (list_ascii_of_string s)).

Definition rstrip (s : string) : string := string_rev (lstrip (string_rev s)).

Definition py_strip (s : string) : string := rstrip (lstrip s).

Definition safe_folder (name : string) : string :=
  let r := py_strip (sub_bad_runs false name) in
  if String.eqb r "" then "Untitled" else r.

Fixpoint char_in (c : ascii) (s : string) : bool :=
  match s with
  | EmptyString => false
  | String c' r => Ascii.eqb c c' || char_in c r
  end.

Fixpoint all_space (s : string) : bool :=
  match s with
  | EmptyString => true
  | String c r => py_isspace c && all_space r
  end.


(* ------------------------------------------------------------------ *)
(** ** Number formatting and the [humanize_*] helpers

    Floats are modelled by their exact rational value ([Q]); Python's
    fixed-point formatting rounds that exact value half-to-even. *)

(** [q < r] on rationals. *)
Definition Qlt_bool (q r : Q) : bool := negb (Qle_bool r q).

(** Half-to-even rounding of a non-negative rational to an integer. *)
Definition round_half_even (q : Q) : Z :=
  let a := Qnum q in
  let b := Zpos (Qden q) in
  let fl := (a / b)%Z in
  let rem := (a mod b)%Z in
  match Z.compare (2 * rem) b with
  | Lt => fl
  | Gt => (fl + 1)%Z
  | Eq => if Z.even fl then fl else (fl + 1)%Z
  end.

Definition pad_zeros (d : nat) (s : string) : string :=
  String.concat "" (repeat "0" (d - String.length s)) +:+ s.

(** [f"{q:.df}"] *)
Definition fmt_fixed (d : nat) (q : Q) : string :=
  let scale := (10 ^ Z.of_nat d)%Z in
  let r := round_half_even (Qabs q * inject_Z scale) in
  (if Qlt_bool q 0%Q then "-" else "") +:+ pretty (r / scale)%Z +:+
  (match d with
   | O => ""
   | S _ => "." +:+ pad_zeros d (pretty (r mod scale)%Z)
   end).

(** [isinstance(v, (int, float))] with its numeric value ([bool] is an
    [int] subclass in Python), for the finite values; the infinities and
    NaN are handled where they occur. *)
Definition py_num (v : pyval) : option Q :=
  match v with
  | PInt z => Some (inject_Z z)
  | PFloat q => Some q
  | PNegZero => Some 0%Q
  | PBool b => Some (if b then 1%Q else 0%Q)
  | _ => None
  end.

(** Binary64 arithmetic, as CPython's [float]: 53-bit significands,
    exponents up to 1024, rounding to nearest with ties to even. *)

(** [float(z)] of an int: the nearest double (an infinity past the
    largest double, where Python raises [OverflowError]). *)
Definition b64_of_Z (z : Z) : spec_float := binary_normalize 53 1024 z 0 false.

(** The double nearest to the rational [q]. *)
Definition b64_of_Q (q : Q) : spec_float :=
  match Qnum q with
  | Z0 => S754_zero false
  | Zpos n =>
      let '(m, e, l) := SFdiv_core_binary 53 1024 (Zpos n) 0 (Zpos (Qden q)) 0 in
      binary_round_aux 53 1024 false m e l
  | Zneg n =>
      let '(m, e, l) := SFdiv_core_binary 53 1024 (Zpos n) 0 (Zpos (Qden q)) 0 in
      binary_round_aux 53 1024 true m e l
  end.

(** A double as a Python value. *)
Definition b64_to_pyval (f : spec_float) : pyval :=
  match f with
  | S754_zero false => PFloat 0
  | S754_zero true => PNegZero
  | S754_infinity s => PInf s
  | S754_nan => PNaN
  | S754_finite s m e => PFloat (inject_Z (if s then Zneg m else Zpos m) * Qpower 2 e)%Q
  end.

(** [float(v)].  For the values [float()] rejects (None, a list, an int
    past the double range) and for a string (which [float()] parses when
    it is a numeral and rejects otherwise), Python raises; that exception
    of the hook is not modelled, and such a value reads as [0.0] (an
    oversized int as an infinity).  [hook_downloading_progress] is
    stated for counters [float()] accepts ([float_arg_ok]). *)
Definition py_float (v : pyval) : spec_float :=
  match v with
  | PBool b => b64_of_Z (if b then 1 else 0)
  | PInt z => b64_of_Z z
  | PFloat q => b64_of_Q q
  | PNegZero => S754_zero true
  | PInf s => S754_infinity s
  | PNaN => S754_nan
  | PNone | PStr _ | PStrList _ => S754_zero false
  end.

(** [float()] accepts [v] and gives the double [py_float v]. *)
Definition float_arg_ok (v : pyval) : bool :=
  match v with
  | PInt z => match b64_of_Z z with S754_infinity _ => false | _ => true end
  | PBool _ | PFloat _ | PNegZero | PInf _ | PNaN => true
  | PNone | PStr _ | PStrList _ => false
  end.

(** [float(done) / float(total) * 100.0] *)
Definition fl_progress (done_ total : pyval) : spec_float :=
  SFmul 53 1024 (SFdiv 53 1024 (py_float done_) (py_float total)) (b64_of_Z 100).

(** [f"{x:.df}"] of a double [x]. *)
Definition fmt_b64 (d : nat) (f : spec_float) : string :=
  match f with
  | S754_zero s => (if s then "-" else "") +:+ fmt_fixed d 0
  | S754_infinity s => if s then "-inf" else "inf"
  | S754_nan => "nan"
  | S754_finite s m e => fmt_fixed d (inject_Z (if s then Zneg m else Zpos m) * Qpower 2 e)%Q
  end.

Fixpoint humanize_bytes_go (units : list string) (n : Q) : string :=
  match units with
  | [] => fmt_fixed 2 n +:+ " B"
  | u :: r =>
      if Qlt_bool n 1024%Q || String.eqb u "TiB" then fmt_fixed 2 n +:+ " " +:+ u
      else humanize_bytes_go r (n / 1024)%Q
  end.

Definition humanize_bytes (n : Q) : string :=
  humanize_bytes_go ["B"; "KiB"; "MiB"; "GiB"; "TiB"] n.

Definition is_sgr_param (c : ascii) : bool :=
  let n := nat_of_ascii c in (((48 <=? n) && (n <=? 57)) || (n =? 59))%nat.

(** After [ESC \[], the rest of the input past [[0-9;]*m], if it matches. *)
Fixpoint sgr_tail (s : string) : option string :=
  match s with
  | EmptyString => None
  | String c r =>
      if is_sgr_param c then sgr_tail r
      else if Ascii.eqb c "m" then Some r else None
  end.

Fixpoint strip_ansi_go (fuel : nat) (s : string) : string :=
  match fuel with
  | O => s
  | S fuel =>
      match s with
      | EmptyString => EmptyString
      | String c r =>
          let keep := String c (strip_ansi_go fuel r) in
          if Ascii.eqb c "027" then
            match r with
            | String "[" r' =>
                match sgr_tail r' with
                | Some rest => strip_ansi_go fuel rest
                | None => keep
                end
            | _ => keep
            end
          else keep
      end
  end.

(** [strip_ansi(s)]: [None] and [""] give [""]; otherwise
    [re.sub(r"\x1b\[[0-9;]*m", "", s)]. *)
Definition strip_ansi (s : option pyval) : string :=
  match s with
  | Some (PStr s) => strip_ansi_go (String.length s) s
  | _ => ""
  end.

Definition humanize_bps (v : option pyval) (fallback : option pyval) : string :=
  match v with
  | Some (PInf false) => "inf TiB/s"
  | _ =>
  match match v with Some v => py_num v | None => None end with
  | Some q => if Qlt_bool 0%Q q then humanize_bytes q +:+ "/s" else strip_ansi fallback
  | None => strip_ansi fallback
  end
  end.

Definition humanize_seconds (sec : option pyval) : string :=
  match sec with
  | None | Some PNone => ""
  | Some (PStr s) => strip_ansi (Some (PStr s))
  | Some (PInf false) => "inf"
  | Some (PInf true) | Some PNaN => "0s"
  | Some v =>
      match py_num v with
      | None => ""
      | Some q =>
          let s := Z.max 0 (Qnum q ÷ Zpos (Qden q))%Z in
          let h := (s / 3600)%Z in
          let m := ((s mod 3600) / 60)%Z in
          let ss := (s mod 60)%Z in
          if negb (Z.eqb h 0) then pretty h +:+ "h " +:+ pretty m +:+ "m " +:+ pretty ss +:+ "s"
          else if negb (Z.eqb m 0) then pretty m +:+ "m " +:+ pretty ss +:+ "s"
          else pretty ss +:+ "s"
      end
  end.


(* ------------------------------------------------------------------ *)
(** ** The progress hook [_progress_hook(job_id)] *)

(** [os.path.basename]: the text after the last slash. *)
Fixpoint basename_go (acc s : string) : string :=
  match s with
  | EmptyString => acc
  | String c r => if Ascii.eqb c "/" then basename_go "" r else basename_go (acc +:+ String c "") r
  end.

Definition basename (s : string) : string := basename_go "" s.

(** [v == s] for a value read with [d.get]. *)
Definition py_eq_str (v : option pyval) (s : string) : bool :=
  match v with Some (PStr s') => String.eqb s' s | _ => false end.

(** One invocation of [hook(d)] on the record [job]; the boolean tells
    whether it ends by raising [KeyboardInterrupt]. *)
Definition hook_job (job : pydict) (d : pydict) : pydict * bool :=
  let status := dict_get d "status" in
  let job :=
    if py_eq_str status "downloading" then
      let job := dict_set job "status" (PStr "running") in
      let total := py_or (dict_get d "total_bytes")
                     (py_or (dict_get d "total_bytes_estimate") (PInt 0)) in
      let done_ := py_or (dict_get d "downloaded_bytes") (PInt 0) in
      let job :=
        if py_truthy total
        then dict_set job "progress" (b64_to_pyval (fl_progress done_ total))
        else job in
      let prog := match dict_get job "progress" with Some v => py_float v | None => b64_of_Z 0 end in
      let job := dict_set job "percent" (PStr (fmt_b64 1 prog +:+ "%")) in
      let job := dict_set job "speed" (PStr (humanize_bps (dict_get d "speed") (dict_get d "_speed_str"))) in
      let eta := humanize_seconds (dict_get d "eta") in
      let eta := if String.eqb eta "" then strip_ansi (dict_get d "_eta_str") else eta in
      dict_set job "eta" (PStr eta)
    else if py_eq_str status "finished" then
      let fname := match dict_get d "filename" with Some (PStr f) => f | _ => "" end in
      dict_set job "message" (PStr ("Processing " +:+ basename fname +:+ "…"))
    else job in
  (job, dict_get_truthy job "_cancel").

(** The hook as installed: it looks the record up in [JOBS] first. *)
Definition progress_hook (job_id : string) (d : pydict) (jobs : registry) : registry * bool :=
  match jobs !! job_id with
  | None | Some [] => (jobs, false)
  | Some job => let '(job', raised) := hook_job job d in (<[job_id := job']> jobs, raised)
  end.

(* ------------------------------------------------------------------ *)
(** ** The worker: a state and exception monad

    The worker thread runs against the shared registry.  The external
    collaborator (yt-dlp) is an environment [env]: the probe, the title
    lookup of one item, and for a download the sequence of actions that
    happen while it runs (progress-hook calls, and [cancel_job] calls of
    a concurrent request thread that interleave with them) followed by
    its outcome.  Filesystem effects of the worker are left out here; the
    Staging Reconciler is modelled on its own below. *)

Inductive exn : Type :=
  | KeyboardInterrupt
  | DownloadError (msg : string)
  | OtherError (msg : string).

Inductive dl_action : Type :=
  | HookCall (d : pydict)
  | ConcurrentCancel.

Inductive dl_outcome : Type :=
  | DlOk
  | DlRaise (e : exn).

Record env : Type := {
  (** [probe_url_meta(url)]: [(kind, title)] or the exception it raises *)
  env_probe : string -> exn + (string * string);
  (** [extract_info(u)["title"] or ""]; [None] when it raises *)
  env_title : string -> option string;
  (** [YoutubeDL({"format": fmt, ...}).download([u])] *)
  env_download : string -> string -> list dl_action * dl_outcome
}.

Record wstate : Type := {
  ws_jobs : registry;
  (** [(currentItem, url)] each time an item's download starts *)
  ws_items : list (Z * string);
  (** [(format, url)] of every [YoutubeDL.download] call *)
  ws_calls : list (string * string)
}.

Definition M (A : Type) : Type := wstate -> wstate * (exn + A).

Definition ret {A} (a : A) : M A := fun s => (s, inr a).
Definition raise {A} (e : exn) : M A := fun s => (s, inl e).
Definition bind {A B} (m : M A) (k : A -> M B) : M B :=
  fun s => match m s with (s', inl e) => (s', inl e) | (s', inr a) => k a s' end.
(** [try: m except e: h(e)] *)
Definition catch {A} (m : M A) (h : exn -> M A) : M A :=
  fun s => match m s with (s', inl e) => h e s' | r => r end.

Notation "'let*' x := m 'in' k" := (bind m (fun x => k))
  (at level 200, x name, m at level 100, k at level 200).
Notation "m ;;; k" := (bind m (fun _ => k)) (at level 100, right associativity).

Definition modify (f : wstate -> wstate) : M unit := fun s => (f s, inr tt).
Definition gets {A} (f : wstate -> A) : M A := fun s => (s, inr (f s)).

Definition set_jobs (jobs : registry) (s : wstate) : wstate :=
  {| ws_jobs := jobs; ws_items := ws_items s; ws_calls := ws_calls s |}.

(** [JOBS[job_id].get(k)] *)
Definition field (jobs : registry) (job_id k : string) : option pyval :=
  match jobs !! job_id with Some j => dict_get j k | None => None end.

Section Worker.
Variable E : env.
Variable job_id : string.

(** [job[k] = v] on [JOBS[job_id]] *)
Definition job_set (k : string) (v : pyval) : M unit :=
  modify (fun s => set_jobs (alter (fun j => dict_set j k v) job_id (ws_jobs s)) s).

(** [job.get(k)] *)
Definition job_get (k : string) : M (option pyval) :=
  gets (fun s => field (ws_jobs s) job_id k).

Definition job_cancel_flag : M bool :=
  let* v := job_get "_cancel" in ret (match v with Some v => py_truthy v | None => false end).

Fixpoint run_actions (acts : list dl_action) : M unit :=
  match acts with
  | [] => ret tt
  | HookCall d :: r =>
      let* raised := (fun s => let '(jobs, raised) := progress_hook job_id d (ws_jobs s) in
                                (set_jobs jobs s, inr raised)) in
      if raised then raise KeyboardInterrupt else run_actions r
  | ConcurrentCancel :: r =>
      modify (fun s => set_jobs (snd (cancel_job job_id (ws_jobs s))) s);;; run_actions r
  end.

(** [with YoutubeDL(opts) as ydl: ydl.download([url])] *)
Definition ydl_download (fmt url : string) : M unit :=
  modify (fun s => {| ws_jobs := ws_jobs s; ws_items := ws_items s;
                      ws_calls := ws_calls s ++ [(fmt, url)] |});;;
  let '(acts, out) := env_download E fmt url in
  run_actions acts;;;
  match out with DlOk => ret tt | DlRaise e => raise e end.
(** [needle in hay] *)
Fixpoint str_contains (needle hay : string) : bool :=
  String.prefix needle hay ||
  match hay with EmptyString => false | String _ r => str_contains needle r end.

(** [_try_download_one(url, media_type, height, ...)] *)
Definition _try_download_one (url media_type : string) (height : option Z) : M unit :=
  let fmt := _format_string media_type height in
  catch (ydl_download fmt url)
    (fun e =>
       match e with
       | DownloadError msg =>
           if str_contains "Requested format is not available" msg
           then ydl_download (_format_string media_type None) url
           else raise e
       | _ => raise e
       end).

Definition record_item (i : Z) (u : string) : M unit :=
  modify (fun s => {| ws_jobs := ws_jobs s; ws_items := ws_items s ++ [(i, u)];
                      ws_calls := ws_calls s |}).

(** The [for i, u in enumerate(urls, start=1)] loop of [_download_urls]. *)
Fixpoint download_loop (media_type : string) (height : option Z) (total i : Z)
    (urls : list string) : M unit :=
  match urls with
  | [] => ret tt
  | u :: r =>
      job_set "currentItem" (PInt i);;;
      job_set "message" (PStr ("Downloading item " +:+ pretty i +:+ "/" +:+ pretty total +:+ "…"));;;
      job_set "currentTitle" (PStr (match env_title E u with Some t => t | None => "" end));;;
      record_item i u;;;
      _try_download_one u media_type height;;;
      let* c := job_cancel_flag in
      if c then ret tt else download_loop media_type height total (i + 1) r
  end.

Definition _download_urls (urls : list string) (media_type : string) (height : option Z) : M unit :=
  let total := Z.of_nat (length urls) in
  job_set "totalItems" (PInt total);;;
  download_loop media_type height total 1 urls.

(** [os.path.join(a, b)] on POSIX paths *)
Definition path_join (a b : string) : string :=
  if String.prefix "/" b then b
  else if String.eqb a "" then b
  else if String.eqb (String.substring (String.length a - 1) 1 a) "/" then a +:+ b
  else a +:+ "/" +:+ b.

Definition as_str (v : option pyval) : string :=
  match v with Some (PStr s) => s | _ => "" end.

(** The [try] block of [_download_worker]. *)
Definition worker_body (url media_type : string) (height : option Z) (root_dir : string) : M unit :=
  match env_probe E url with
  | inl e => raise e
  | inr (kind, title) =>
      job_set "kind" (PStr kind);;;
      job_set "title" (PStr title);;;
      job_set "status" (PStr "running");;;
      job_set "message" (PStr "Starting…");;;
      let final_dir :=
        if String.eqb kind "playlist"
        then path_join root_dir (safe_folder (if String.eqb title "" then "Playlist" else title))
        else root_dir in
      job_set "finalDir" (PStr final_dir);;;
      let* sel := job_get "selectedUrls" in
      let selected := match sel with Some (PStrList l) => l | _ => [] end in
      let urls := if String.eqb kind "playlist" && negb (Nat.eqb (length selected) 0)
                  then selected else [url] in
      _download_urls urls media_type height;;;
      let* c := job_cancel_flag in
      let st := if c then "canceled" else "done" in
      job_set "status" (PStr st);;;
      job_set "message" (PStr (if String.eqb st "done" then "Completed" else "Canceled"));;;
      (if String.eqb st "done"
       then job_set "progress" (PFloat 100);;; job_set "percent" (PStr "100%")
       else ret tt);;;
      job_set "eta" (PStr "");;;
      job_set "speed" (PStr "")
  end.

(** The [except] clauses of [_download_worker]. *)
Definition worker_handler (e : exn) : M unit :=
  match e with
  | KeyboardInterrupt => job_set "status" (PStr "canceled");;; job_set "message" (PStr "Canceled")
  | DownloadError m => job_set "status" (PStr "error");;; job_set "message" (PStr ("DownloadError: " +:+ m))
  | OtherError m => job_set "status" (PStr "error");;; job_set "message" (PStr ("Error: " +:+ m))
  end.

(** [_download_worker(job_id)].  Its [finally] block first runs the
    Staging Reconciler (filesystem only, see [Reconciler]) and then
    annotates a canceled job. *)
Definition _download_worker (storage_dir : string) : M unit :=
  let* url := job_get "url" in
  let* mt := job_get "mediaType" in
  let* h := job_get "videoHeight" in
  let* rd := job_get "rootDir" in
  let height := match h with Some (PInt z) => Some z | _ => None end in
  let root_dir := match rd with Some (PStr r) => r | _ => storage_dir end in
  catch (worker_body (as_str url) (as_str mt) height root_dir) worker_handler;;;
  let* st := job_get "status" in
  if py_eq_str st "canceled"
  then job_set "message" (PStr "Canceled — completed items saved to destination.")
  else ret tt.
End Worker.

(** The worker thread run to completion from registry [jobs]. *)
Definition run_worker (E : env) (storage_dir job_id : string) (jobs : registry) : wstate :=
  fst (_download_worker E job_id storage_dir {| ws_jobs := jobs; ws_items := []; ws_calls := [] |}).

(* ------------------------------------------------------------------ *)
(** ** [create_job] *)

(** The record [create_job] stores in [JOBS[job_id]]. *)
Definition new_job_record (job_id url media_type : string) (video_height : option Z)
    (audio_bitrate : option string) (selected_urls : list string)
    (root_dir : string) (created : Z) : pydict :=
  [("jobId", PStr job_id);
   ("url", PStr url);
   ("mediaType", PStr media_type);
   ("videoHeight", match video_height with Some h => PInt h | None => PNone end);
   ("audioBitrate", PStr (match audio_bitrate with
                          | Some b => if String.eqb b "" then "best" else b
                          | None => "best" end));
   ("selectedUrls", PStrList selected_urls);
   ("rootDir", PStr root_dir);
   ("finalDir", PNone);
   ("status", PStr "queued");
   ("progress", PFloat 0);
   ("percent", PStr "0%");
   ("eta", PStr "");
   ("speed", PStr "");
   ("message", PStr "");
   ("_cancel", PBool false);
   ("kind", PNone);
   ("title", PStr "");
   ("currentItem", PInt 0);
   ("totalItems", PInt 0);
   ("currentTitle", PStr "");
   ("created", PInt created)].

(* ------------------------------------------------------------------ *)
(** ** Probe helpers: [_list_heights_from_info] and the playlist entries
    of [probe_url_meta] *)

(** [isinstance(h, int)] with its value ([bool] is an [int] subclass). *)
Definition py_int (v : option pyval) : option Z :=
  match v with
  | Some (PInt z) => Some z
  | Some (PBool b) => Some (if b then 1%Z else 0%Z)
  | _ => None
  end.

(** The height one format contributes:
    [if vcodec and vcodec != "none" and isinstance(h, int)]. *)
Definition format_height (f : pydict) : option Z :=
  let vcodec := dict_get f "vcodec" in
  if match vcodec with Some v => py_truthy v | None => false end && negb (py_eq_str vcodec "none")
  then py_int (dict_get f "height")
  else None.

(** The [heights.add(h)] loop, collecting in visiting order. *)
Fixpoint collect_heights (formats : list pydict) : list Z :=
  match formats with
  | [] => []
  | f :: r => match format_height f with Some h => h :: collect_heights r | None => collect_heights r end
  end.

(** Insertion into a strictly decreasing list, dropping a duplicate. *)
Fixpoint insert_desc (x : Z) (l : list Z) : list Z :=
  match l with
  | [] => [x]
  | y :: r => if (y <? x)%Z then x :: l else if (x =? y)%Z then l else y :: insert_desc x r
  end.

(** [sorted(set(l), reverse=True)] *)
Definition sorted_set_desc (l : list Z) : list Z := fold_right insert_desc [] l.

(** [_list_heights_from_info(info)], given the list
    [(info or {}).get("formats", [])] it iterates over. *)
Definition _list_heights_from_info (formats : list pydict) : list Z :=
  sorted_set_desc (collect_heights formats).

(** The value of [d.get(k)], [None] when absent. *)
Definition get_or_none (v : option pyval) : pyval :=
  match v with Some v => v | None => PNone end.

(** The dict [probe_url_meta] appends for the playlist entry [e] at
    position [i]. *)
Definition entry_record (i : Z) (e : pydict) : pydict :=
  [("index", PInt i);
   ("id", py_or (dict_get e "id") (PStr ""));
   ("title", py_or (dict_get e "title") (PStr ("Item " +:+ pretty i)));
   ("url", py_or (dict_get e "url") (get_or_none (dict_get e "webpage_url")));
   ("duration", py_or (dict_get e "duration") (get_or_none (dict_get e "duration_string")));
   ("thumbnail", PNone)].

(** [for i, e in enumerate(info.get("entries") or [], start=i): if not e:
    continue; ...]; an entry is [None] or a dict, and an empty dict is
    falsy. *)
Fixpoint playlist_entries (i : Z) (es : list (option pydict)) : list pydict :=
  match es with
  | [] => []
  | None :: r | Some [] :: r => playlist_entries (i + 1) r
  | Some e :: r => entry_record i e :: playlist_entries (i + 1) r
  end.

(* ------------------------------------------------------------------ *)
(** ** The push stream of [app.py]: [api_stream(job_id)]

    The generator polls [get_job(job_id)] every 0.7 s; the successive
    results of [get_job] are given as a list, and [json.dumps] as a
    function [dumps].  A record without ["status"] makes [job["status"]]
    raise, which ends the stream. *)

Definition nl : string := String (ascii_of_nat 10) "".

Definition sse_error : string := "event: error" +:+ nl +:+ "data: {}" +:+ nl +:+ nl.

Definition sse_data (payload : string) : string := "data: " +:+ payload +:+ nl +:+ nl.

Section Stream.
Variable dumps : pydict -> string.

(** [gen()] from [last_payload], on the successive polls. *)
Fixpoint stream_gen (last_payload : option string) (polls : list (option pydict)) : list string :=
  match polls with
  | [] => []
  | None :: _ | Some [] :: _ => [sse_error]
  | Some job :: r =>
      let payload := dumps job in
      let changed := match last_payload with Some l => negb (String.eqb payload l) | None => true end in
      let out := if changed then [sse_data payload] else [] in
      match dict_get job "status" with
      | None => out
      | Some (PStr st) => if is_terminal st then out else out ++ stream_gen (Some payload) r
      | Some _ => out ++ stream_gen (Some payload) r
      end
  end.
End Stream.

(* ------------------------------------------------------------------ *)
(** ** The Staging Reconciler [_move_completed_to_final]

    Paths are lists of components.  A filesystem maps regular-file
    paths to their contents and records the set of directories.  Every
    filesystem call is taken to succeed, so [shutil.move] is a rename
    and the [copy2] fallback is never reached. *)

Module Reconciler.

Abbreviation path := (list string).

Local Open Scope list_scope.

Record fs : Type := {
  fs_files : gmap path string;
  fs_dirs : gset path
}.

(** [os.path.exists(p)] *)
Definition path_exists (s : fs) (p : path) : bool :=
  bool_decide (p ∈ dom (fs_files s) ∪ fs_dirs s).

Definition existing (s : fs) : gset path := dom (fs_files s) ∪ fs_dirs s.

(** The non-empty prefixes of [p], i.e. the directories [os.makedirs(p)] creates. *)
Fixpoint ancestors_incl (p : path) : list path :=
  match p with
  | [] => []
  | c :: r => [c] :: map (cons c) (ancestors_incl r)
  end.

(** [os.makedirs(p, exist_ok=True)] *)
Definition makedirs (p : path) (s : fs) : fs :=
  {| fs_files := fs_files s; fs_dirs := fs_dirs s ∪ list_to_set (ancestors_incl p) |}.

(** [os.path.splitext(filename)] for a name without a slash: split at
    the last dot unless everything before it is dots. *)
Fixpoint last_dot_go (i : nat) (l : list ascii) (acc : option nat) : option nat :=
  match l with
  | [] => acc
  | c :: r => last_dot_go (S i) r (if Ascii.eqb c "." then Some i else acc)
  end.

Definition splitext (filename : string) : string * string :=
  let l := list_ascii_of_string filename in
  match last_dot_go 0 l None with
  | None => (filename, "")
  | Some k =>
      if existsb (fun c => negb (Ascii.eqb c ".")) (firstn k l)
      then (string_of_list_ascii (firstn k l), string_of_list_ascii (skipn k l))
      else (filename, "")
  end.

(** [f"{base} ({n}){ext}"] *)
Definition candidate_name (base ext : string) (n : N) : string :=
  base +:+ " (" +:+ pretty n +:+ ")" +:+ ext.

(** The [while os.path.exists(candidate)] loop, from counter [n]; [fuel]
    bounds the number of further iterations. *)
Fixpoint unique_loop (s : fs) (dst_dir : path) (base ext : string) (fuel : nat) (n : N) : path :=
  let c := dst_dir ++ [candidate_name base ext n] in
  if path_exists s c then
    match fuel with O => c | S f => unique_loop s dst_dir base ext f (n + 1)%N end
  else c.

(** [_unique_dst(dst_dir, filename)]; the loop is given as many further
    iterations as there are existing paths, which is never exhausted
    (see [unique_dst_fresh]). *)
Definition _unique_dst (s : fs) (dst_dir : path) (filename : string) : path :=
  let '(base, ext) := splitext filename in
  let c := dst_dir ++ [filename] in
  if path_exists s c then unique_loop s dst_dir base ext (size (existing s)) 1%N else c.

Fixpoint str_ends_with_rev (sfx_rev s_rev : list ascii) : bool :=
  match sfx_rev, s_rev with
  | [], _ => true
  | a :: r, b :: r' => Ascii.eqb a b && str_ends_with_rev r r'
  | _ :: _, [] => false
  end.

(** [s.endswith(sfx)] *)
Definition ends_with (sfx s : string) : bool :=
  str_ends_with_rev (rev (list_ascii_of_string sfx)) (rev (list_ascii_of_string s)).

Definition is_temp_name (f : string) : bool := ends_with ".part" f || ends_with ".ytdl" f.

Definition last_component (p : path) : string := List.last p "".

(** The file paths [os.walk(work_dir)] visits: every regular file strictly
    below [work_dir] (in an unspecified order, as [os.listdir]'s). *)
Definition walk_files (s : fs) (work_dir : path) : list path :=
  filter (fun p => bool_decide (work_dir `prefix_of` p) && negb (bool_decide (p = work_dir)))
    (map fst (map_to_list (fs_files s))).

(** [shutil.move(src, dst)] *)
Definition move_file (src dst : path) (s : fs) : fs :=
  match fs_files s !! src with
  | Some c => {| fs_files := <[dst := c]> (delete src (fs_files s)); fs_dirs := fs_dirs s |}
  | None => s
  end.

(** One iteration of the inner loop over [files]. *)
Definition move_one (final_dir : path) (s : fs) (src : path) : fs :=
  let f := last_component src in
  if is_temp_name f then s
  else
    let dst := _unique_dst s final_dir f in
    let s := makedirs (removelast dst) s in
    move_file src dst s.

(** [shutil.rmtree(work_dir, ignore_errors=True)] *)
Definition rmtree (work_dir : path) (s : fs) : fs :=
  {| fs_files := filter (fun '(p, _) => negb (bool_decide (work_dir `prefix_of` p))) (fs_files s);
     fs_dirs := filter (fun p => negb (bool_decide (work_dir `prefix_of` p))) (fs_dirs s) |}.

Definition _move_completed_to_final (work_dir final_dir : option path) (s : fs) : fs :=
  match work_dir, final_dir with
  | Some w, Some f =>
      if bool_decide (w ∈ fs_dirs s) then
        let s := makedirs f s in
        let s := fold_left (move_one f) (walk_files s w) s in
        rmtree w s
      else s
  | _, _ => s
  end.









End Reconciler.

(* ------------------------------------------------------------------ *)
(** ** The Path Resolver [_resolve_root_dir]

    The operating system is an environment: the home directory, the
    password database used by [~user], and whether [os.makedirs] of a
    path succeeds. *)

Module PathResolver.

Record os_env : Type := {
  os_home : string;
  os_user_home : string -> option string;
  os_makedirs_ok : string -> bool
}.

(** Split [s] at its first slash: [(before, from_slash_on)]. *)
Fixpoint split_first_slash (s : string) : string * string :=
  match s with
  | EmptyString => ("", "")
  | String c r =>
      if Ascii.eqb c "/" then ("", s)
      else let '(a, b) := split_first_slash r in (String c a, b)
  end.

Fixpoint rstrip_slash_rev (l : list ascii) : list ascii :=
  match l with
  | c :: r => if Ascii.eqb c "/" then rstrip_slash_rev r else l
  | [] => []
  end.

(** [s.rstrip("/")] *)
Definition rstrip_slash (s : string) : string :=
  string_of_list_ascii (rev (rstrip_slash_rev (rev (list_ascii_of_string s)))).

(** [os.path.expanduser(p)] (POSIX) *)
Definition expanduser (O : os_env) (p : string) : string :=
  match p with
  | String "~" rest =>
      let '(name, tail) := split_first_slash rest in
      let uh := if String.eqb name "" then Some (os_home O) else os_user_home O name in
      match uh with
      | None => p
      | Some h => let r := rstrip_slash h +:+ tail in if String.eqb r "" then "/" else r
      end
  | _ => p
  end.

(** [os.path.isabs(p)] (POSIX) *)
Definition isabs (p : string) : bool := String.prefix "/" p.

(** [_resolve_root_dir(user_dir, media_type)]; [inl] is the exception
    raised by the unprotected second [os.makedirs]. *)
Definition _resolve_root_dir (O : os_env) (storage_dir vid_bucket aud_bucket : string)
    (user_dir : option string) (media_type : string) : exn + string :=
  let root :=
    match user_dir with
    | Some u =>
        if String.eqb u "" then (if String.eqb media_type "video" then vid_bucket else aud_bucket)
        else let u := expanduser O u in if isabs u then u else path_join storage_dir u
    | None => if String.eqb media_type "video" then vid_bucket else aud_bucket
    end in
  if os_makedirs_ok O root then inr root
  else if os_makedirs_ok O storage_dir then inr storage_dir
  else inl (OtherError "makedirs failed").

(** [os.path.normpath] of an absolute path, as components. *)
Fixpoint norm_components (stack : list string) (comps : list string) : list string :=
  match comps with
  | [] => rev stack
  | c :: r =>
      if String.eqb c "" || String.eqb c "." then norm_components stack r
      else if String.eqb c ".." then norm_components (tail stack) r
      else norm_components (c :: stack) r
  end.

Fixpoint split_slash_go (cur : string) (s : string) : list string :=
  match s with
  | EmptyString => [cur]
  | String c r => if Ascii.eqb c "/" then cur :: split_slash_go "" r
                  else split_slash_go (cur +:+ String c "") r
  end.

Definition normpath_abs (p : string) : string :=
  "/" +:+ String.concat "/" (norm_components [] (split_slash_go "" p)).

(** Concrete operating systems: one where every directory can be
    created, one where none can. *)
Definition os_writable : os_env := {|
  os_home := "/home/u"; os_user_home := fun _ => None; os_makedirs_ok := fun _ => true |}.

Definition os_readonly : os_env := {|
  os_home := "/home/u"; os_user_home := fun _ => None; os_makedirs_ok := fun _ => false |}.

End PathResolver.

(* ------------------------------------------------------------------ *)
(** ** Vocabulary for the properties *)

(** The keys of a record built by [create_job], in insertion order. *)
Definition job_keys : list string :=
  ["jobId"; "url"; "mediaType"; "videoHeight"; "audioBitrate"; "selectedUrls";
   "rootDir"; "finalDir"; "status"; "progress"; "percent"; "eta"; "speed";
   "message"; "_cancel"; "kind"; "title"; "currentItem"; "totalItems";
   "currentTitle"; "created"].

(** The wire-exact snapshot field list as the spec words it (section 6). *)
Definition spec_wire_fields : list string :=
  ["jobId"; "url"; "mediaType"; "videoHeight"; "audioBitrate"; "selectedUrls";
   "rootDir"; "finalDir"; "status"; "progress"; "percent"; "eta"; "speed";
   "message"; "kind"; "title"; "currentItem"; "totalItems"; "currentTitle"; "created"].

(** The keys [_download_worker] and [_download_urls] assign. *)
Definition worker_keys : list string :=
  ["kind"; "title"; "status"; "message"; "finalDir"; "totalItems"; "currentItem";
   "currentTitle"; "progress"; "percent"; "eta"; "speed"].

(** The registries the program can produce: jobs are created, canceled,
    updated by progress hooks, and assigned by their worker. *)
Inductive reachable : registry -> Prop :=
  | reach_empty : reachable ∅
  | reach_create jobs job_id url media_type vh ab sel root created :
      reachable jobs ->
      reachable (<[job_id := new_job_record job_id url media_type vh ab sel root created]> jobs)
  | reach_cancel jobs job_id :
      reachable jobs -> reachable (snd (cancel_job job_id jobs))
  | reach_hook jobs job_id d :
      reachable jobs -> reachable (fst (progress_hook job_id d jobs))
  | reach_set jobs job_id k v :
      reachable jobs -> k ∈ worker_keys ->
      reachable (alter (fun j => dict_set j k v) job_id jobs).

(** [list(enumerate(urls, start=i))] *)
Fixpoint enumerate_from (i : Z) (l : list string) : list (Z * string) :=
  match l with [] => [] | u :: r => (i, u) :: enumerate_from (i + 1) r end.

(** No concurrent cancellation happens during a download. *)
Definition no_cancel (acts : list dl_action) : bool :=
  forallb (fun a => match a with ConcurrentCancel => false | HookCall _ => true end) acts.

(** The first attempt failed because the requested format is unavailable. *)
Definition format_unavailable (r : exn + unit) : bool :=
  match r with
  | inl (DownloadError m) => str_contains "Requested format is not available" m
  | _ => false
  end.

(** Concrete scenario: a single video whose transfer is canceled by a
    concurrent [DELETE /api/jobs/j1] between two progress callbacks. *)
Definition ev_downloading : pydict :=
  [("status", PStr "downloading"); ("downloaded_bytes", PInt 512);
   ("total_bytes", PInt 1024); ("speed", PFloat 1048576); ("eta", PInt 3)].

Definition env_cancel_mid_transfer : env := {|
  env_probe := fun _ => inr ("video", "Clip");
  env_title := fun _ => Some "Clip";
  env_download := fun _ _ => ([HookCall ev_downloading; ConcurrentCancel; HookCall ev_downloading], DlOk)
|}.

(** Concrete scenario: everything succeeds. *)
Definition env_ok : env := {|
  env_probe := fun _ => inr ("video", "Clip");
  env_title := fun _ => Some "Clip";
  env_download := fun _ _ => ([HookCall ev_downloading], DlOk)
|}.

Definition jobs_one : registry :=
  {[ "j1" := new_job_record "j1" "https://example/video1" "video" None None [] "/dl/Yt_videos" 0 ]}.

(** The registry once the worker of [jobs_one] has finished normally. *)
Definition jobs_one_done : registry := ws_jobs (run_worker env_ok "/app/storage" "j1" jobs_one).

(** The record of [jobs_one_done]. *)
Definition job_done_record : pydict :=
  match jobs_one_done !! "j1" with Some j => j | None => [] end.

(** Neither [total_bytes] nor [total_bytes_estimate] carries a value. *)
Definition no_total (d : pydict) : bool :=
  match dict_get d "total_bytes" with None | Some PNone => true | _ => false end &&
  match dict_get d "total_bytes_estimate" with None | Some PNone => true | _ => false end.

(** The keys a progress callback writes, and those one loop iteration writes. *)
Definition hook_keys : list string := ["status"; "progress"; "percent"; "speed"; "eta"; "message"].
Definition loop_keys : list string := "currentItem" :: "currentTitle" :: hook_keys.

(** The item [u], in the media type [mt] at the height [h], is
    downloaded without a cancellation request and without an unrecovered
    error: the first attempt succeeds, or it fails only because the
    requested format is not available and the fallback attempt at the
    best format succeeds. *)
Definition item_succeeds (E : env) (mt : string) (h : option Z) (u : string) : Prop :=
  no_cancel (fst (env_download E (_format_string mt h) u)) = true /\
  (snd (env_download E (_format_string mt h) u) = DlOk \/
   exists m, snd (env_download E (_format_string mt h) u) = DlRaise (DownloadError m) /\
     str_contains "Requested format is not available" m = true /\
     no_cancel (fst (env_download E (_format_string mt None) u)) = true /\
     snd (env_download E (_format_string mt None) u) = DlOk).


(** The list [_download_worker] hands to [_download_urls]:
    [selected_urls if (meta["kind"] == "playlist" and selected_urls) else [url]]. *)
Definition resolved_urls (kind url : string) (sel : list string) : list string :=
  if String.eqb kind "playlist" && negb (Nat.eqb (length sel) 0) then sel else [url].

(** Concrete scenario: a video playlist job at height 720 whose entries
    have no 720p format, so every first attempt fails and every fallback
    attempt succeeds. *)
Definition env_playlist_720 : env := {|
  env_probe := fun _ => inr ("playlist", "Mix");
  env_title := fun u => Some u;
  env_download := fun fmt _ =>
    if String.eqb fmt "bv*+ba/b" then ([HookCall ev_downloading], DlOk)
    else ([], DlRaise (DownloadError "ERROR: [youtube] x: Requested format is not available"))
|}.

Definition jobs_sel_720 : registry :=
  {[ "j3" := new_job_record "j3" "https://example/list" "video" (Some 720%Z) None
               ["https://example/b"; "https://example/a"] "/dl/Yt_videos" 0 ]}.

(** A progress event with one byte of three downloaded. *)
Definition ev_third : pydict :=
  [("status", PStr "downloading"); ("downloaded_bytes", PInt 1); ("total_bytes", PInt 3)].

(** Every record of the registry has exactly the keys of [job_keys]. *)
Definition keys_ok (jobs : registry) : Prop :=
  forall job_id j, jobs !! job_id = Some j -> map fst j = job_keys.

(** The worker only performs steps of [reachable]. *)
Definition preserves_reach {A} (m : M A) : Prop :=
  forall s, reachable (ws_jobs s) -> reachable (ws_jobs (fst (m s))).

(** The facts carried through a quiet run: the effect on the items log
    and on the fields outside the written keys. *)
Definition frames (job_id : string) (written : list string) (s s' : wstate) : Prop :=
  forall k v, k ∉ written -> field (ws_jobs s) job_id k = Some v -> field (ws_jobs s') job_id k = Some v.

(** ** Auxiliary definitions for the properties below *)


(** The index [probe_url_meta] gives a playlist entry record. *)
Definition entry_index (o : pydict) : Z :=
  match dict_get o "index" with Some (PInt i) => i | _ => 0%Z end.

(** [if not e: continue] keeps the entries for which this holds. *)
Definition entry_truthy (e : option pydict) : bool :=
  match e with None | Some [] => false | Some _ => true end.

(** The parameter text of an SGR escape: only digits and semicolons. *)
Fixpoint all_sgr_params (p : string) : bool :=
  match p with EmptyString => true | String c r => is_sgr_param c && all_sgr_params r end.

(** Whether the poll [o] ends [gen()]: the job is gone, or its status is
    missing (the lookup raises) or terminal. *)
Definition ends_stream (o : option pydict) : bool :=
  match o with
  | None | Some [] => true
  | Some job =>
      match dict_get job "status" with
      | None => true
      | Some (PStr st) => is_terminal st
      | Some _ => false
      end
  end.

(** The event [gen()] emits for the poll that ends it. *)
Definition final_event (dumps : pydict -> string) (o : option pydict) : string :=
  match o with Some ((_ :: _) as job) => sse_data (dumps job) | _ => sse_error end.

(** No event of [l] equals the one before it, the first one not [x]. *)
Fixpoint no_repeat_from (x : option string) (l : list string) : Prop :=
  match l with
  | [] => True
  | a :: r => (match x with Some y => a <> y | None => True end) /\ no_repeat_from (Some a) r
  end.

(** A poll result holding only a status. *)
Definition poll_status (st : string) : option pydict := Some [("status", PStr st)].

(** What the worker of [job_id] may do to the registry: other jobs are
    untouched, its record changes only at the keys it assigns and at
    [_cancel], and [_cancel] either stays or becomes [True]. *)
Definition worker_frame (job_id : string) (jobs jobs' : registry) : Prop :=
  (forall k, k <> job_id -> jobs' !! k = jobs !! k) /\
  (forall k, k ∉ worker_keys -> k <> "_cancel" -> field jobs' job_id k = field jobs job_id k) /\
  (field jobs' job_id "_cancel" = field jobs job_id "_cancel" \/
   field jobs' job_id "_cancel" = Some (PBool true)).

Definition keeps_frame {A} (job_id : string) (m : M A) : Prop :=
  forall s, worker_frame job_id (ws_jobs s) (ws_jobs (fst (m s))).

(** The record [_download_worker] leaves when [probe_url_meta] raises [e]:
    its [except] clause, then its [finally] block. *)
Definition probe_failed_record (j : pydict) (e : exn) : pydict :=
  match e with
  | KeyboardInterrupt =>
      dict_set (dict_set (dict_set j "status" (PStr "canceled")) "message" (PStr "Canceled"))
        "message" (PStr "Canceled — completed items saved to destination.")
  | DownloadError m => dict_set (dict_set j "status" (PStr "error")) "message" (PStr ("DownloadError: " +:+ m))
  | OtherError m => dict_set (dict_set j "status" (PStr "error")) "message" (PStr ("Error: " +:+ m))
  end.

(** [JOBS[job_id].get("_cancel")] in a boolean context. *)
Definition cancel_truthy (jobs : registry) (job_id : string) : bool :=
  match field jobs job_id "_cancel" with Some v => py_truthy v | None => false end.



(* ------------------------------------------------------------------ *)
(** * Properties *)

Open Scope list_scope.

(** ** Python dict lemmas *)

Lemma dict_get_set_eq (d : pydict) k v : dict_get (dict_set d k v) k = Some v.
Proof.
  induction d as [|[k' v'] r IH]; simpl.
  - now rewrite String.eqb_refl.
  - destruct (String.eqb k k') eqn:E; simpl; rewrite ?E, ?String.eqb_refl; auto.
Qed.

Lemma dict_get_set_ne (d : pydict) k k' v :
  k <> k' -> dict_get (dict_set d k v) k' = dict_get d k'.
Proof.
  intros Hne. induction d as [|[k0 v0] r IH]; simpl.
  - destruct (String.eqb k' k) eqn:E; auto.
    apply String.eqb_eq in E; congruence.
  - destruct (String.eqb k k0) eqn:E; simpl.
    + apply String.eqb_eq in E; subst.
      destruct (String.eqb k' k0) eqn:E'; auto.
      apply String.eqb_eq in E'; congruence.
    + destruct (String.eqb k' k0); auto.
Qed.

Lemma dict_set_keys (d : pydict) k v :
  k ∈ map fst d -> map fst (dict_set d k v) = map fst d.
Proof.
  induction d as [|[k0 v0] r IH]; simpl; intros Hin.
  - inversion Hin.
  - destruct (String.eqb k k0) eqn:E; simpl; auto.
    f_equal. apply IH.
    apply elem_of_cons in Hin as [->|Hin]; auto.
    rewrite String.eqb_refl in E; discriminate.
Qed.

Lemma dict_set_nonempty (d : pydict) k v : dict_set d k v <> [].
Proof. destruct d as [|[k0 v0] r]; simpl; [|destruct (String.eqb k k0)]; discriminate. Qed.

(** ** C10 *)

(** C10: for every height, [_format_string "audio" h] is the constant
    ["bestaudio/best"]; the height never affects audio jobs. *)
Theorem format_string_audio_ignores_height (h : option Z) :
  _format_string "audio" h = "bestaudio/best".
Proof. reflexivity. Qed.

(** ** C6: [safe_folder] *)

Lemma char_in_existsb c s : char_in c s = existsb (Ascii.eqb c) (list_ascii_of_string s).
Proof. induction s as [|c' r IH]; simpl; congruence. Qed.

Lemma char_in_string_rev c s : char_in c (string_rev s) = char_in c s.
Proof.
  unfold string_rev. rewrite !char_in_existsb, list_ascii_of_string_of_list_ascii.
  apply eq_iff_eq_true. rewrite !existsb_exists.
  split; intros [x [Hx Hc]]; exists x; split; auto.
  - now apply in_rev. - now apply in_rev in Hx.
Qed.

Lemma char_in_lstrip c s : char_in c (lstrip s) = true -> char_in c s = true.
Proof.
  induction s as [|c' r IH]; simpl; auto.
  destruct (py_isspace c'); simpl; intros H; auto.
  rewrite (IH H). apply orb_true_r.
Qed.

Lemma char_in_py_strip c s : char_in c (py_strip s) = true -> char_in c s = true.
Proof.
  unfold py_strip, rstrip. rewrite char_in_string_rev. intros H.
  apply char_in_lstrip. apply char_in_lstrip in H. now rewrite char_in_string_rev in H.
Qed.

Lemma underscore_not_bad : is_bad_char "_" = false.
Proof. reflexivity. Qed.

Lemma sub_bad_runs_clean c b s :
  is_bad_char c = true -> char_in c (sub_bad_runs b s) = false.
Proof.
  intros Hc. revert b. induction s as [|c' r IH]; intros b; simpl; auto.
  destruct (is_bad_char c') eqn:Hb; [destruct b|]; simpl; rewrite ?IH.
  - reflexivity.
  - destruct (Ascii.eqb c "_") eqn:E; auto.
    apply Ascii.eqb_eq in E; subst. discriminate.
  - destruct (Ascii.eqb c c') eqn:E; auto.
    apply Ascii.eqb_eq in E; subst. congruence.
Qed.

Lemma untitled_clean c : is_bad_char c = true -> char_in c "Untitled" = false.
Proof.
  intros Hc. destruct (char_in c "Untitled") eqn:E; auto.
  simpl in E. repeat (apply orb_true_iff in E as [E|E];
    [apply Ascii.eqb_eq in E; subst; discriminate|]); discriminate.
Qed.

Lemma space_not_bad c : py_isspace c = true -> is_bad_char c = false.
Proof. destruct c as [[] [] [] [] [] [] [] []]; intros H; first [reflexivity | discriminate H]. Qed.

Lemma sub_bad_runs_spaces b s : all_space s = true -> sub_bad_runs b s = s.
Proof.
  revert b. induction s as [|c r IH]; intros b; simpl; auto.
  intros H. apply andb_true_iff in H as [H1 H2].
  rewrite (space_not_bad _ H1), IH; auto.
Qed.

Lemma lstrip_spaces s : all_space s = true -> lstrip s = "".
Proof.
  induction s as [|c r IH]; simpl; auto.
  intros H. apply andb_true_iff in H as [H1 H2]. rewrite H1. auto.
Qed.

(** C6: for every input, [safe_folder] returns a non-empty name that
    contains none of the characters backslash, slash, colon, star,
    question mark, double quote, less-than, greater-than and bar (each
    run of them was replaced by an underscore), and an empty or
    whitespace-only input yields the placeholder ["Untitled"]. *)
Theorem safe_folder_sanitizes (name : string) :
  safe_folder name <> "" /\
  (forall c, is_bad_char c = true -> char_in c (safe_folder name) = false) /\
  (all_space name = true -> safe_folder name = "Untitled").
Proof.
  unfold safe_folder.
  destruct (String.eqb (py_strip (sub_bad_runs false name)) "") eqn:E.
  - split; [discriminate|]. split; [apply untitled_clean|auto].
  - apply String.eqb_neq in E. split; [exact E|]. split.
    + intros c Hc. destruct (char_in c (py_strip (sub_bad_runs false name))) eqn:Hin; auto.
      apply char_in_py_strip in Hin. now rewrite sub_bad_runs_clean in Hin.
    + intros Hs. exfalso. apply E.
      rewrite sub_bad_runs_spaces by exact Hs.
      unfold py_strip. rewrite lstrip_spaces by exact Hs. reflexivity.
Qed.

(** ** C1: [cancel_job] on a terminal job *)

(** C1 (counterexample): after the worker of [jobs_one] has finished with
    status ["done"], [cancel_job] overwrites the message of the terminal
    record. *)
Lemma cancel_job_terminal_not_noop :
  field jobs_one_done "j1" "status" = Some (PStr "done") /\
  field jobs_one_done "j1" "message" = Some (PStr "Completed") /\
  field (snd (cancel_job "j1" jobs_one_done)) "j1" "message" = Some (PStr "Cancel requested…") /\
  field (snd (cancel_job "j1" jobs_one_done)) "j1" "_cancel" = Some (PBool true).
Proof. vm_compute. repeat split. Qed.

(** C1 (amended): on a job whose status is terminal, [cancel_job] returns
    [True], keeps the status and every field other than [_cancel] and
    [message], sets [_cancel] to [True] and [message] to
    ["Cancel requested…"], and leaves every other job untouched. *)
Theorem cancel_job_terminal_frame (jobs : registry) (job_id : string) (j : pydict) :
  jobs !! job_id = Some j ->
  is_terminal (as_str (dict_get j "status")) = true ->
  fst (cancel_job job_id jobs) = true /\
  field (snd (cancel_job job_id jobs)) job_id "status" = dict_get j "status" /\
  field (snd (cancel_job job_id jobs)) job_id "_cancel" = Some (PBool true) /\
  field (snd (cancel_job job_id jobs)) job_id "message" = Some (PStr "Cancel requested…") /\
  (forall k, k <> "_cancel" -> k <> "message" ->
     field (snd (cancel_job job_id jobs)) job_id k = dict_get j k) /\
  (forall other, other <> job_id -> snd (cancel_job job_id jobs) !! other = jobs !! other).
Proof.
  intros Hj Ht.
  assert (Hc : cancel_job job_id jobs =
    (true, <[job_id := dict_set (dict_set j "_cancel" (PBool true)) "message"
                         (PStr "Cancel requested…")]> jobs)).
  { unfold cancel_job. rewrite Hj. destruct j; [discriminate Ht|reflexivity]. }
  rewrite Hc. cbn [fst snd]. unfold field. rewrite lookup_insert_eq.
  split; [reflexivity|]. repeat split.
  - rewrite dict_get_set_ne by discriminate. rewrite dict_get_set_ne by discriminate. reflexivity.
  - rewrite dict_get_set_ne by discriminate. apply dict_get_set_eq.
  - apply dict_get_set_eq.
  - intros k H1 H2. rewrite dict_get_set_ne by congruence. rewrite dict_get_set_ne by congruence. reflexivity.
  - intros other Ho. rewrite lookup_insert_ne by congruence. reflexivity.
Qed.

Lemma cancel_job_terminal_frame_witness :
  jobs_one_done !! "j1" = Some job_done_record /\
  is_terminal (as_str (dict_get job_done_record "status")) = true /\
  fst (cancel_job "j1" jobs_one_done) = true.
Proof.
  assert (H1 : jobs_one_done !! "j1" = Some job_done_record) by (vm_compute; reflexivity).
  assert (H2 : is_terminal (as_str (dict_get job_done_record "status")) = true) by (vm_compute; reflexivity).
  split; [exact H1|]. split; [exact H2|].
  exact (proj1 (cancel_job_terminal_frame jobs_one_done "j1" job_done_record H1 H2)).
Defined.

(** ** C3: transient fields on a canceled transfer *)

(** C3 (failing input): a transfer interrupted by a concurrent
    cancellation ends with status ["canceled"] while [speed] and [eta]
    still hold the values of the last progress callback. *)
Theorem worker_cancel_keeps_speed_eta :
  field (ws_jobs (run_worker env_cancel_mid_transfer "/app/storage" "j1" jobs_one)) "j1" "status"
    = Some (PStr "canceled") /\
  field (ws_jobs (run_worker env_cancel_mid_transfer "/app/storage" "j1" jobs_one)) "j1" "speed"
    = Some (PStr "1.00 MiB/s") /\
  field (ws_jobs (run_worker env_cancel_mid_transfer "/app/storage" "j1" jobs_one)) "j1" "eta"
    = Some (PStr "3s").
Proof. vm_compute. repeat split. Qed.

(** ** C7: the single format fallback *)

Lemma run_actions_calls job_id acts s :
  ws_calls (fst (run_actions job_id acts s)) = ws_calls s.
Proof.
  revert s. induction acts as [|[d|] r IH]; intros s; simpl; auto.
  - unfold bind. destruct (progress_hook job_id d (ws_jobs s)) as [jobs raised].
    simpl. destruct raised; simpl; [reflexivity|]. rewrite IH. reflexivity.
  - unfold bind, modify. simpl. rewrite IH. reflexivity.
Qed.

Lemma ydl_download_calls E job_id fmt url s :
  ws_calls (fst (ydl_download E job_id fmt url s)) = ws_calls s ++ [(fmt, url)].
Proof.
  unfold ydl_download, bind, modify. simpl.
  destruct (env_download E fmt url) as [acts out].
  destruct (run_actions job_id acts _) as [s1 [e|[]]] eqn:Hr.
  - simpl. pose proof (run_actions_calls job_id acts
      {| ws_jobs := ws_jobs s; ws_items := ws_items s; ws_calls := ws_calls s ++ [(fmt, url)] |}) as H.
    rewrite Hr in H. exact H.
  - pose proof (run_actions_calls job_id acts
      {| ws_jobs := ws_jobs s; ws_items := ws_items s; ws_calls := ws_calls s ++ [(fmt, url)] |}) as H.
    rewrite Hr in H. simpl in H. destruct out; exact H.
Qed.

(** C7: [_try_download_one] calls the downloader once at the requested
    format; only if that attempt fails with a format-unavailable
    [DownloadError] does it call it exactly once more at the best format
    for the media type, and then its outcome is that of the fallback;
    any other outcome of the first attempt (success or any other
    exception) is returned as is. *)
Theorem try_download_one_single_fallback E job_id url media_type height s :
  ws_calls (fst (_try_download_one E job_id url media_type height s)) =
    ws_calls s ++ (_format_string media_type height, url) ::
      (if format_unavailable (snd (ydl_download E job_id (_format_string media_type height) url s))
       then [(_format_string media_type None, url)] else []) /\
  snd (_try_download_one E job_id url media_type height s) =
    (if format_unavailable (snd (ydl_download E job_id (_format_string media_type height) url s))
     then snd (ydl_download E job_id (_format_string media_type None) url
                 (fst (ydl_download E job_id (_format_string media_type height) url s)))
     else snd (ydl_download E job_id (_format_string media_type height) url s)).
Proof.
  pose proof (ydl_download_calls E job_id (_format_string media_type height) url s) as Hc.
  unfold _try_download_one, catch.
  destruct (ydl_download E job_id (_format_string media_type height) url s) as [s1 r1] eqn:Hd.
  simpl in Hc. simpl.
  destruct r1 as [e|[]]; simpl; [|split; [now rewrite Hc|reflexivity]].
  destruct e as [|m|m]; simpl; try (split; [now rewrite Hc|reflexivity]).
  destruct (str_contains "Requested format is not available" m); simpl.
  - split; [|reflexivity]. rewrite ydl_download_calls, Hc, <- app_assoc. reflexivity.
  - split; [now rewrite Hc|reflexivity].
Qed.

(** ** C8: the progress hook on a downloading event *)

Ltac dict_simpl :=
  repeat first [ rewrite dict_get_set_eq | rewrite dict_get_set_ne by discriminate ].

Lemma progress_hook_found job_id d (jobs : registry) j :
  jobs !! job_id = Some j -> j <> [] ->
  progress_hook job_id d jobs = (<[job_id := fst (hook_job j d)]> jobs, snd (hook_job j d)).
Proof.
  intros Hj Hne. unfold progress_hook. rewrite Hj.
  destruct j as [|kv r]; [contradiction|].
  destruct (hook_job (kv :: r) d); reflexivity.
Qed.

Lemma py_or_truthy v b : py_truthy v = true -> py_or (Some v) b = v.
Proof. intros H. unfold py_or. now rewrite H. Qed.

Lemma py_or_falsy v b :
  match v with Some v => py_truthy v | None => false end = false -> py_or v b = b.
Proof. destruct v as [v|]; simpl; [intros H; now rewrite H|reflexivity]. Qed.

Lemma py_or_absent v b :
  match v with None | Some PNone => true | _ => false end = true -> py_or v b = b.
Proof. destruct v as [[]|]; simpl; congruence. Qed.

(** C8 (amended): on a ["downloading"] event the record's status
    becomes ["running"]; when the event carries no total (neither
    [total_bytes] nor [total_bytes_estimate]) [progress] is left
    unchanged; when it carries a truthy total ([total_bytes], or else
    the estimate) and both counters are values [float()] accepts,
    [progress] becomes the double
    [float(downloaded) / float(total) * 100.0], each of the conversions,
    the division and the multiplication rounded to the nearest double. *)
Theorem hook_downloading_progress (job_id : string) (d : pydict) (jobs : registry) (j : pydict) :
  jobs !! job_id = Some j -> j <> [] ->
  py_eq_str (dict_get d "status") "downloading" = true ->
  field (fst (progress_hook job_id d jobs)) job_id "status" = Some (PStr "running") /\
  (no_total d = true ->
     field (fst (progress_hook job_id d jobs)) job_id "progress" = dict_get j "progress") /\
  (forall vt, dict_get d "total_bytes" = Some vt -> py_truthy vt = true ->
     float_arg_ok vt = true -> float_arg_ok (py_or (dict_get d "downloaded_bytes") (PInt 0)) = true ->
     field (fst (progress_hook job_id d jobs)) job_id "progress"
       = Some (b64_to_pyval (fl_progress (py_or (dict_get d "downloaded_bytes") (PInt 0)) vt))) /\
  (forall ve, dict_get_truthy d "total_bytes" = false ->
     dict_get d "total_bytes_estimate" = Some ve -> py_truthy ve = true ->
     float_arg_ok ve = true -> float_arg_ok (py_or (dict_get d "downloaded_bytes") (PInt 0)) = true ->
     field (fst (progress_hook job_id d jobs)) job_id "progress"
       = Some (b64_to_pyval (fl_progress (py_or (dict_get d "downloaded_bytes") (PInt 0)) ve))).
Proof.
  intros Hj Hne Hs.
  rewrite (progress_hook_found job_id d jobs j Hj Hne). cbn [fst].
  unfold field. rewrite lookup_insert_eq.
  unfold hook_job. cbv zeta. rewrite Hs. cbn beta iota delta [fst].
  split; [|split; [|split]].
  - dict_simpl. destruct (py_truthy _); dict_simpl; reflexivity.
  - intros Hn. unfold no_total in Hn. apply andb_true_iff in Hn as [H1 H2].
    dict_simpl. rewrite (py_or_absent _ _ H1), (py_or_absent _ _ H2). cbn beta iota delta [py_truthy Z.eqb negb]. dict_simpl. reflexivity.
  - intros vt Ht Htr _ _. dict_simpl.
    rewrite Ht, (py_or_truthy _ _ Htr), Htr. dict_simpl. reflexivity.
  - intros ve Ht He Htr _ _. dict_simpl. unfold dict_get_truthy in Ht.
    rewrite (py_or_falsy _ _ Ht), He, (py_or_truthy _ _ Htr), Htr. dict_simpl. reflexivity.
Qed.

Lemma hook_downloading_progress_witness :
  field (fst (progress_hook "j1" ev_downloading jobs_one)) "j1" "progress"
    = Some (b64_to_pyval (fl_progress (PInt 512) (PInt 1024))).
Proof.
  assert (Hj : jobs_one !! "j1" = Some (new_job_record "j1" "https://example/video1" "video" None None [] "/dl/Yt_videos" 0))
    by reflexivity.
  assert (Hne : new_job_record "j1" "https://example/video1" "video" None None [] "/dl/Yt_videos" 0 <> [])
    by discriminate.
  assert (Hs : py_eq_str (dict_get ev_downloading "status") "downloading" = true) by reflexivity.
  destruct (hook_downloading_progress "j1" ev_downloading jobs_one _ Hj Hne Hs) as (_ & _ & H3 & _).
  apply (H3 (PInt 1024)); vm_compute; reflexivity.
Defined.

(** C8 (counterexample): with one byte of three downloaded, [progress]
    is the double 33.33333333333333 (= 4691249611844266 / 2^47), which is
    not 1 / 3 * 100; it is not even the double nearest to 100 / 3
    (33.333333333333336). *)
Lemma hook_progress_rounds :
  field (fst (progress_hook "j1" ev_third jobs_one)) "j1" "progress"
    = Some (PFloat (4691249611844266 # 140737488355328)) /\
  ~ (4691249611844266 # 140737488355328 == (1 # 3) * 100)%Q /\
  b64_to_pyval (b64_of_Q (100 # 3)) <> PFloat (4691249611844266 # 140737488355328) /\
  field (fst (progress_hook "j1" ev_third jobs_one)) "j1" "percent" = Some (PStr "33.3%").
Proof.
  split; [vm_compute; reflexivity|]. split; [|split; [vm_compute; discriminate|vm_compute; reflexivity]].
  intros H. apply Qeq_bool_iff in H. vm_compute in H. discriminate.
Qed.

(** ** C4: the fields of a job snapshot *)

Ltac in_list := apply list_elem_of_In; simpl; intuition congruence.

Lemma dict_set_job_keys (d : pydict) k v :
  map fst d = job_keys -> k ∈ job_keys -> map fst (dict_set d k v) = job_keys.
Proof. intros H Hk. rewrite dict_set_keys; [exact H|]. now rewrite H. Qed.

Ltac set_keys :=
  repeat (apply dict_set_job_keys; [|in_list]).

Lemma hook_job_keys (j d : pydict) :
  map fst j = job_keys -> map fst (fst (hook_job j d)) = job_keys.
Proof.
  intros H. unfold hook_job. cbv zeta.
  destruct (py_eq_str (dict_get d "status") "downloading");
    [destruct (py_truthy _)|destruct (py_eq_str (dict_get d "status") "finished")];
    cbn [fst]; set_keys; exact H.
Qed.

Lemma keys_ok_insert (jobs : registry) job_id j :
  keys_ok jobs -> map fst j = job_keys -> keys_ok (<[job_id := j]> jobs).
Proof.
  intros Hok Hj id j' Hl. destruct (decide (id = job_id)) as [->|Hne].
  - rewrite lookup_insert_eq in Hl. injection Hl as <-. exact Hj.
  - rewrite lookup_insert_ne in Hl by congruence. eauto.
Qed.

Lemma reachable_keys_ok (jobs : registry) : reachable jobs -> keys_ok jobs.
Proof.
  induction 1 as [| jobs id url mt vh ab sel root created _ IH
                  | jobs id _ IH | jobs id d _ IH | jobs id k v _ IH Hk].
  - intros id j Hl. rewrite lookup_empty in Hl. discriminate.
  - apply keys_ok_insert; [exact IH|reflexivity].
  - unfold cancel_job. destruct (jobs !! id) as [[|kv r]|] eqn:Hl; cbn [snd]; try exact IH.
    apply keys_ok_insert; [exact IH|]. set_keys. exact (IH _ _ Hl).
  - unfold progress_hook. destruct (jobs !! id) as [[|kv r]|] eqn:Hl; cbn [fst]; try exact IH.
    destruct (hook_job (kv :: r) d) as [j' raised] eqn:Hh. cbn [fst].
    apply keys_ok_insert; [exact IH|].
    replace j' with (fst (hook_job (kv :: r) d)) by now rewrite Hh.
    apply hook_job_keys. exact (IH _ _ Hl).
  - intros id' j Hl. destruct (decide (id' = id)) as [->|Hne].
    + rewrite lookup_alter_eq in Hl.
      destruct (jobs !! id) as [j0|] eqn:H0; cbn in Hl; [|discriminate].
      injection Hl as <-. apply dict_set_job_keys; [exact (IH _ _ H0)|].
      revert Hk. unfold worker_keys, job_keys. rewrite !list_elem_of_In. simpl. tauto.
    + rewrite lookup_alter_ne in Hl by congruence. eauto.
Qed.

Lemma pr_bind {A B} (m : M A) (k : A -> M B) :
  preserves_reach m -> (forall a, preserves_reach (k a)) -> preserves_reach (bind m k).
Proof.
  intros Hm Hk s Hs. unfold bind. specialize (Hm s Hs).
  destruct (m s) as [s' [e|a]]; simpl in *; auto. apply Hk. exact Hm.
Qed.

Lemma pr_catch {A} (m : M A) (h : exn -> M A) :
  preserves_reach m -> (forall e, preserves_reach (h e)) -> preserves_reach (catch m h).
Proof.
  intros Hm Hh s Hs. unfold catch. specialize (Hm s Hs).
  destruct (m s) as [s' [e|a]]; simpl in *; auto. apply Hh. exact Hm.
Qed.

Lemma pr_ret {A} (a : A) : preserves_reach (ret a).
Proof. intros s Hs. exact Hs. Qed.

Lemma pr_raise {A} (e : exn) : preserves_reach (@raise A e).
Proof. intros s Hs. exact Hs. Qed.

Lemma pr_gets {A} (f : wstate -> A) : preserves_reach (gets f).
Proof. intros s Hs. exact Hs. Qed.

Lemma pr_job_set job_id k v : k ∈ worker_keys -> preserves_reach (job_set job_id k v).
Proof. intros Hk s Hs. simpl. apply reach_set; assumption. Qed.

Lemma pr_record_item i u : preserves_reach (record_item i u).
Proof. intros s Hs. exact Hs. Qed.

Lemma pr_run_actions job_id acts : preserves_reach (run_actions job_id acts).
Proof.
  induction acts as [|[d|] r IH]; simpl.
  - apply pr_ret.
  - apply pr_bind.
    + intros s Hs. cbn. destruct (progress_hook job_id d (ws_jobs s)) as [jobs raised] eqn:Hh.
      cbn. replace jobs with (fst (progress_hook job_id d (ws_jobs s))) by now rewrite Hh.
      now apply reach_hook.
    + intros []; [apply pr_raise|exact IH].
  - apply pr_bind; [|intros _; exact IH].
    intros s Hs. cbn. now apply reach_cancel.
Qed.

Lemma pr_ydl_download E job_id fmt url : preserves_reach (ydl_download E job_id fmt url).
Proof.
  unfold ydl_download. apply pr_bind; [intros s Hs; exact Hs|intros _].
  destruct (env_download E fmt url) as [acts out].
  apply pr_bind; [apply pr_run_actions|intros _].
  destruct out; [apply pr_ret|apply pr_raise].
Qed.

Lemma pr_try_download_one E job_id url mt h : preserves_reach (_try_download_one E job_id url mt h).
Proof.
  unfold _try_download_one. apply pr_catch; [apply pr_ydl_download|].
  intros []; try apply pr_raise.
  destruct (str_contains _ _); [apply pr_ydl_download|apply pr_raise].
Qed.

Ltac reach_step :=
  match goal with
  | |- preserves_reach (bind _ _) => apply pr_bind; [|intros ?]
  | |- preserves_reach (catch _ _) => apply pr_catch; [|intros ?]
  | |- preserves_reach (ret _) => apply pr_ret
  | |- preserves_reach (raise _) => apply pr_raise
  | |- preserves_reach (gets _) => apply pr_gets
  | |- preserves_reach (job_get _ _) => apply pr_gets
  | |- preserves_reach (job_set _ _ _) => apply pr_job_set; in_list
  | |- preserves_reach (record_item _ _) => apply pr_record_item
  | |- preserves_reach (_try_download_one _ _ _ _ _) => apply pr_try_download_one
  | |- preserves_reach (job_cancel_flag _) => unfold job_cancel_flag
  | |- preserves_reach (if ?b then _ else _) => destruct b
  | |- preserves_reach (match ?x with _ => _ end) => destruct x
  end.

Lemma pr_download_loop E job_id mt h total i urls :
  preserves_reach (download_loop E job_id mt h total i urls).
Proof.
  revert i. induction urls as [|u r IH]; intros i; simpl.
  - apply pr_ret.
  - repeat reach_step. apply IH.
Qed.

Lemma run_worker_reachable E storage_dir job_id (jobs : registry) :
  reachable jobs -> reachable (ws_jobs (run_worker E storage_dir job_id jobs)).
Proof.
  intros Hr. unfold run_worker.
  assert (H : preserves_reach (_download_worker E job_id storage_dir)).
  { unfold _download_worker, worker_body, worker_handler, _download_urls.
    repeat first [reach_step | apply pr_download_loop]. }
  apply (H {| ws_jobs := jobs; ws_items := []; ws_calls := [] |}). exact Hr.
Qed.

(** C4 (counterexample): the snapshot of a freshly created job also
    carries the internal ["_cancel"] key, so its field set is not the
    twenty wire fields. *)
Lemma get_job_has_cancel_field :
  get_job "j1" jobs_one
    = Some (new_job_record "j1" "https://example/video1" "video" None None [] "/dl/Yt_videos" 0) /\
  map fst (new_job_record "j1" "https://example/video1" "video" None None [] "/dl/Yt_videos" 0)
    <> spec_wire_fields /\
  "_cancel" ∈ map fst (new_job_record "j1" "https://example/video1" "video" None None [] "/dl/Yt_videos" 0).
Proof. split; [reflexivity|]. split; [discriminate|]. in_list. Qed.

(** C4 (amended): in every registry the program can produce (creations,
    cancellations, progress callbacks and worker assignments, see
    [run_worker_reachable]), the snapshot [get_job] returns for an
    existing id has exactly the keys [job_keys], in that order: the twenty
    wire fields plus the internal ["_cancel"] flag after ["message"]. *)
Theorem get_job_snapshot_keys (jobs : registry) (job_id : string) (j : pydict) :
  reachable jobs -> get_job job_id jobs = Some j -> map fst j = job_keys.
Proof. intros Hr Hj. exact (reachable_keys_ok jobs Hr job_id j Hj). Qed.

Lemma get_job_snapshot_keys_witness :
  map fst job_done_record = job_keys.
Proof.
  assert (Hr : reachable jobs_one_done).
  { apply run_worker_reachable. apply (reach_create ∅). apply reach_empty. }
  apply (get_job_snapshot_keys jobs_one_done "j1" job_done_record Hr).
  vm_compute. reflexivity.
Defined.

(** ** C5: the items a worker processes *)

Lemma not_in_neq k k' (l : list string) : k ∉ l -> k' ∈ l -> k <> k'.
Proof. intros H1 H2 ->. contradiction. Qed.

Ltac key_ne Hk := first [ discriminate | eapply not_in_neq; [exact Hk| in_list] ].

Lemma hook_job_other (j d : pydict) k :
  k ∉ hook_keys -> dict_get (fst (hook_job j d)) k = dict_get j k.
Proof.
  intros Hk. unfold hook_job. cbv zeta.
  destruct (py_eq_str (dict_get d "status") "downloading");
    [destruct (py_truthy _)|destruct (py_eq_str (dict_get d "status") "finished")];
    cbn [fst];
    repeat (rewrite dict_get_set_ne by (apply not_eq_sym; key_ne Hk)); reflexivity.
Qed.

Lemma hook_job_raised (j d : pydict) : snd (hook_job j d) = dict_get_truthy (fst (hook_job j d)) "_cancel".
Proof. reflexivity. Qed.

Lemma progress_hook_frame job_id d (jobs : registry) k :
  k ∉ hook_keys -> field (fst (progress_hook job_id d jobs)) job_id k = field jobs job_id k.
Proof.
  intros Hk. unfold field, progress_hook.
  destruct (jobs !! job_id) as [[|kv r]|] eqn:Hl; cbn [fst]; rewrite ?Hl; try reflexivity.
  destruct (hook_job (kv :: r) d) as [j' raised] eqn:Hh. cbn [fst].
  rewrite lookup_insert_eq.
  replace j' with (fst (hook_job (kv :: r) d)) by now rewrite Hh.
  apply hook_job_other. exact Hk.
Qed.

Lemma progress_hook_no_raise job_id d (jobs : registry) :
  field jobs job_id "_cancel" = Some (PBool false) -> snd (progress_hook job_id d jobs) = false.
Proof.
  unfold field, progress_hook. intros Hc.
  destruct (jobs !! job_id) as [[|kv r]|] eqn:Hl; cbn [snd]; try reflexivity.
  destruct (hook_job (kv :: r) d) as [j' raised] eqn:Hh. cbn [snd].
  replace raised with (snd (hook_job (kv :: r) d)) by now rewrite Hh.
  rewrite hook_job_raised. unfold dict_get_truthy.
  rewrite hook_job_other by (intros H; apply list_elem_of_In in H; simpl in H; intuition discriminate).
  now rewrite Hc.
Qed.

Lemma frames_refl job_id l s : frames job_id l s s.
Proof. intros k v _ H. exact H. Qed.

Lemma frames_trans job_id l s1 s2 s3 :
  frames job_id l s1 s2 -> frames job_id l s2 s3 -> frames job_id l s1 s3.
Proof. intros H1 H2 k v Hk H. apply H2; auto. Qed.

Lemma frames_mono job_id (l l' : list string) s s' :
  (forall k, k ∈ l -> k ∈ l') -> frames job_id l s s' -> frames job_id l' s s'.
Proof. intros Hl H k v Hk Hf. apply H; auto. Qed.

Lemma field_alter_ne (jobs : registry) job_id k k' v :
  k' <> k -> field (alter (fun j => dict_set j k' v) job_id jobs) job_id k = field jobs job_id k.
Proof.
  intros Hne. unfold field. rewrite lookup_alter_eq.
  destruct (jobs !! job_id); cbn; [|reflexivity]. now apply dict_get_set_ne.
Qed.

Lemma field_alter_eq (jobs : registry) job_id k v w k0 :
  field jobs job_id k0 = Some w ->
  field (alter (fun j => dict_set j k v) job_id jobs) job_id k = Some v.
Proof.
  unfold field. rewrite lookup_alter_eq.
  destruct (jobs !! job_id); cbn; [|discriminate]. intros _. apply dict_get_set_eq.
Qed.

Lemma frames_job_set job_id (l : list string) k v s :
  k ∈ l -> frames job_id l s (set_jobs (alter (fun j => dict_set j k v) job_id (ws_jobs s)) s).
Proof.
  intros Hin k' v' Hk' H. cbn [ws_jobs set_jobs].
  rewrite field_alter_ne; [exact H|]. intros ->. contradiction.
Qed.

Lemma quiet_run_actions job_id acts s :
  no_cancel acts = true -> field (ws_jobs s) job_id "_cancel" = Some (PBool false) ->
  exists s', run_actions job_id acts s = (s', inr tt) /\ ws_items s' = ws_items s /\
             frames job_id hook_keys s s'.
Proof.
  revert s. induction acts as [|[d|] r IH]; intros s Hq Hc.
  - exists s. split; [reflexivity|]. split; [reflexivity|]. apply frames_refl.
  - cbn [no_cancel forallb andb] in Hq. cbn [run_actions]. unfold bind.
    pose proof (progress_hook_no_raise job_id d (ws_jobs s) Hc) as Hr.
    pose proof (progress_hook_frame job_id d (ws_jobs s)) as Hf.
    destruct (progress_hook job_id d (ws_jobs s)) as [jobs raised]. cbn in Hr, Hf. subst raised.
    assert (Hc' : field jobs job_id "_cancel" = Some (PBool false)).
    { rewrite Hf; [exact Hc|]. intros H; apply list_elem_of_In in H; simpl in H; intuition discriminate. }
    destruct (IH (set_jobs jobs s) Hq Hc') as (s' & Hrun & Hi & Hfr).
    exists s'. split; [exact Hrun|]. split; [exact Hi|].
    eapply frames_trans; [|exact Hfr]. intros k v Hk Hv. cbn. rewrite Hf; assumption.
  - discriminate Hq.
Qed.

Lemma quiet_ydl_download E job_id fmt url s :
  no_cancel (fst (env_download E fmt url)) = true -> field (ws_jobs s) job_id "_cancel" = Some (PBool false) ->
  exists s', ydl_download E job_id fmt url s =
               (s', match snd (env_download E fmt url) with DlOk => inr tt | DlRaise e => inl e end) /\
             ws_items s' = ws_items s /\ frames job_id hook_keys s s'.
Proof.
  intros Hq Hc.
  unfold ydl_download, bind, modify.
  destruct (env_download E fmt url) as [acts out]. cbn in Hq |- *.
  destruct (quiet_run_actions job_id acts
              {| ws_jobs := ws_jobs s; ws_items := ws_items s; ws_calls := ws_calls s ++ [(fmt, url)] |}
              Hq Hc) as (s' & Hrun & Hi & Hfr).
  rewrite Hrun. exists s'. split; [destruct out; reflexivity|]. split; [exact Hi|].
  intros k v Hk Hv. apply Hfr; assumption.
Qed.

Lemma quiet_try_download_one E job_id url mt h s :
  item_succeeds E mt h url -> field (ws_jobs s) job_id "_cancel" = Some (PBool false) ->
  exists s', _try_download_one E job_id url mt h s = (s', inr tt) /\ ws_items s' = ws_items s /\
             frames job_id hook_keys s s'.
Proof.
  intros [Hq Ho] Hc. unfold _try_download_one, catch.
  destruct (quiet_ydl_download E job_id (_format_string mt h) url s Hq Hc) as (s' & Hd & Hi & Hf).
  rewrite Hd. destruct Ho as [Ho|(m & Ho & Hm & Hq2 & Ho2)].
  - rewrite Ho. exists s'. auto.
  - rewrite Ho. cbv beta iota. rewrite Hm.
    assert (Hc' : field (ws_jobs s') job_id "_cancel" = Some (PBool false)).
    { apply Hf; [|exact Hc]. intros H; apply list_elem_of_In in H; simpl in H; intuition discriminate. }
    destruct (quiet_ydl_download E job_id (_format_string mt None) url s' Hq2 Hc') as (s'' & Hd2 & Hi2 & Hf2).
    rewrite Hd2, Ho2. exists s''. split; [reflexivity|]. split; [congruence|].
    eapply frames_trans; [exact Hf|exact Hf2].
Qed.

Lemma hook_keys_loop_keys k : k ∈ hook_keys -> k ∈ loop_keys.
Proof. intros H. unfold loop_keys. rewrite !elem_of_cons. tauto. Qed.

Lemma bind_job_set {B} job_id k v (c : unit -> M B) s :
  bind (job_set job_id k v) c s = c tt (set_jobs (alter (fun j => dict_set j k v) job_id (ws_jobs s)) s).
Proof. reflexivity. Qed.

Lemma bind_record_item {B} i u (c : unit -> M B) s :
  bind (record_item i u) c s =
  c tt {| ws_jobs := ws_jobs s; ws_items := ws_items s ++ [(i, u)]; ws_calls := ws_calls s |}.
Proof. reflexivity. Qed.

Lemma bind_ok {A B} (m : M A) (c : A -> M B) s s' a :
  m s = (s', inr a) -> bind m c s = c a s'.
Proof. intros H. unfold bind. now rewrite H. Qed.

Lemma bind_cancel_flag {B} job_id (c : bool -> M B) s :
  bind (job_cancel_flag job_id) c s =
  c (match field (ws_jobs s) job_id "_cancel" with Some v => py_truthy v | None => false end) s.
Proof. reflexivity. Qed.

(** One [job[k] = v] step of a quiet run, for a key of [l] other than ["_cancel"]. *)
Ltac quiet_set s Hc Hf Hi s1 Hc1 Hf1 Hi1 :=
  rewrite bind_job_set; cbn beta;
  set (s1 := set_jobs _ s);
  assert (Hc1 : field (ws_jobs s1) _ "_cancel" = Some (PBool false))
    by (subst s1; cbn [ws_jobs set_jobs]; rewrite field_alter_ne by discriminate; exact Hc);
  lazymatch type of Hf with
  | frames ?id ?l ?s0 _ =>
      assert (Hf1 : frames id l s0 s1)
        by (eapply frames_trans; [exact Hf|subst s1; apply frames_job_set; in_list])
  end;
  lazymatch type of Hi with
  | ws_items _ = ?X => assert (Hi1 : ws_items s1 = X) by (subst s1; exact Hi)
  end;
  clearbody s1; clear Hc Hf Hi.

Lemma quiet_download_loop E job_id mt h total urls :
  (forall u, u ∈ urls -> item_succeeds E mt h u) ->
  forall i s, field (ws_jobs s) job_id "_cancel" = Some (PBool false) ->
  exists s', download_loop E job_id mt h total i urls s = (s', inr tt) /\
             ws_items s' = ws_items s ++ enumerate_from i urls /\
             frames job_id loop_keys s s'.
Proof.
  induction urls as [|u r IH]; intros HE i s Hc.
  - exists s. split; [reflexivity|]. split; [now rewrite app_nil_r|]. apply frames_refl.
  - cbn [download_loop].
    pose proof (frames_refl job_id loop_keys s) as Hf.
    assert (Hi : ws_items s = ws_items s) by reflexivity.
    quiet_set s Hc Hf Hi s0 Hc0 Hf0 Hi0.
    quiet_set s0 Hc0 Hf0 Hi0 s1 Hc1 Hf1 Hi1.
    quiet_set s1 Hc1 Hf1 Hi1 s2 Hc2 Hf2 Hi2.
    rewrite bind_record_item. cbn beta.
    set (s3 := {| ws_jobs := ws_jobs s2; ws_items := ws_items s2 ++ [(i, u)]; ws_calls := ws_calls s2 |}).
    destruct (quiet_try_download_one E job_id u mt h s3 (HE u ltac:(apply elem_of_cons; auto)) Hc2)
      as (s4 & Htry & Hi4 & Hf4).
    rewrite (bind_ok _ _ _ _ _ Htry). cbn beta.
    assert (Hc4 : field (ws_jobs s4) job_id "_cancel" = Some (PBool false)).
    { apply Hf4; [|exact Hc2]. intros H; apply list_elem_of_In in H; simpl in H; intuition discriminate. }
    rewrite bind_cancel_flag, Hc4. cbn beta iota.
    destruct (IH (fun u' Hu' => HE u' ltac:(apply elem_of_cons; auto)) (i + 1)%Z s4 Hc4)
      as (s' & Hrun & Hi' & Hf').
    exists s'. split; [exact Hrun|]. split.
    + rewrite Hi', Hi4. subst s3. cbn [ws_items]. rewrite Hi2. cbn. rewrite <- app_assoc. reflexivity.
    + eapply frames_trans; [exact Hf2|].
      eapply frames_trans; [|exact Hf'].
      eapply frames_mono; [apply hook_keys_loop_keys|exact Hf4].
Qed.

Lemma bind_job_get {B} job_id k (c : option pyval -> M B) s :
  bind (job_get job_id k) c s = c (field (ws_jobs s) job_id k) s.
Proof. reflexivity. Qed.

Lemma bind_catch_ok {A B} (m : M A) h (c : A -> M B) s s' a :
  m s = (s', inr a) -> bind (catch m h) c s = c a s'.
Proof. intros H. unfold bind, catch. now rewrite H. Qed.

Lemma field_set_ne job_id k k' v s :
  k' <> k ->
  field (ws_jobs (set_jobs (alter (fun j => dict_set j k' v) job_id (ws_jobs s)) s)) job_id k =
  field (ws_jobs s) job_id k.
Proof. intros Hne. apply field_alter_ne; exact Hne. Qed.

Lemma field_set_eq job_id k v k0 w s :
  field (ws_jobs s) job_id k0 = Some w ->
  field (ws_jobs (set_jobs (alter (fun j => dict_set j k v) job_id (ws_jobs s)) s)) job_id k = Some v.
Proof. apply field_alter_eq. Qed.

Lemma quiet_download_urls E job_id urls mt h s :
  (forall u, u ∈ urls -> item_succeeds E mt h u) -> field (ws_jobs s) job_id "_cancel" = Some (PBool false) ->
  exists s', _download_urls E job_id urls mt h s = (s', inr tt) /\
             ws_items s' = ws_items s ++ enumerate_from 1 urls /\
             field (ws_jobs s') job_id "totalItems" = Some (PInt (Z.of_nat (length urls))) /\
             field (ws_jobs s') job_id "_cancel" = Some (PBool false).
Proof.
  intros HE Hc. unfold _download_urls. rewrite bind_job_set. cbn beta.
  set (s1 := set_jobs _ s).
  assert (Hc1 : field (ws_jobs s1) job_id "_cancel" = Some (PBool false))
    by (subst s1; rewrite field_set_ne by discriminate; exact Hc).
  destruct (quiet_download_loop E job_id mt h (Z.of_nat (length urls)) urls HE 1 s1 Hc1)
    as (s' & Hrun & Hi & Hf).
  exists s'. split; [exact Hrun|]. split; [exact Hi|]. split.
  - apply Hf; [|subst s1; eapply field_set_eq; exact Hc].
    intros Hk; apply list_elem_of_In in Hk; simpl in Hk; intuition discriminate.
  - apply Hf; [|exact Hc1].
    intros Hk; apply list_elem_of_In in Hk; simpl in Hk; intuition discriminate.
Qed.

Lemma bind_assoc {A B C} (m : M A) (f : A -> M B) (g : B -> M C) s :
  bind (bind m f) g s = bind m (fun x => bind (f x) g) s.
Proof. unfold bind. destruct (m s) as [s' [e|a]]; reflexivity. Qed.

Lemma job_set_run job_id k v s :
  job_set job_id k v s = (set_jobs (alter (fun j => dict_set j k v) job_id (ws_jobs s)) s, inr tt).
Proof. reflexivity. Qed.

Lemma quiet_worker_body E job_id url mt h rd kind title sel s :
  (forall u, u ∈ resolved_urls kind url sel -> item_succeeds E mt h u) -> env_probe E url = inr (kind, title) ->
  field (ws_jobs s) job_id "_cancel" = Some (PBool false) ->
  field (ws_jobs s) job_id "selectedUrls" = Some (PStrList sel) ->
  exists s', worker_body E job_id url mt h rd s = (s', inr tt) /\
             ws_items s' = ws_items s ++ enumerate_from 1 (resolved_urls kind url sel) /\
             field (ws_jobs s') job_id "totalItems" =
               Some (PInt (Z.of_nat (length (resolved_urls kind url sel)))) /\
             field (ws_jobs s') job_id "status" = Some (PStr "done").
Proof.
  intros HE Hp Hc Hs. unfold worker_body. rewrite Hp. cbn beta iota zeta.
  do 5 (rewrite bind_job_set; cbn beta).
  rewrite bind_job_get. rewrite !field_set_ne by discriminate. rewrite Hs. cbn beta iota.

  change (if (kind =? "playlist") && negb (length sel =? 0)%nat then sel else [url])
    with (resolved_urls kind url sel).
  match goal with
  | |- exists s', bind (_download_urls _ _ ?u _ _) _ ?s0 = _ /\ _ =>
      assert (Hc0 : field (ws_jobs s0) job_id "_cancel" = Some (PBool false))
        by (rewrite !field_set_ne by discriminate; exact Hc);
      destruct (quiet_download_urls E job_id u mt h s0 HE Hc0) as (s1 & Hd & Hi1 & Ht1 & Hc1);
      assert (Hi0 : ws_items s0 = ws_items s) by reflexivity;
      rewrite (bind_ok _ _ _ _ _ Hd); cbn beta; rewrite Hi0 in Hi1; clear Hd Hc0 Hi0
  end.
  rewrite bind_cancel_flag, Hc1. cbn [py_truthy negb]. cbn beta iota. rewrite String.eqb_refl.
  do 2 (rewrite bind_job_set; cbn beta). rewrite bind_assoc, bind_job_set. cbn beta.
  do 2 (rewrite bind_job_set; cbn beta). rewrite job_set_run.
  eexists. split; [reflexivity|]. split; [exact Hi1|]. split.
  - rewrite !field_set_ne by discriminate. exact Ht1.
  - rewrite !field_set_ne by discriminate. eapply field_set_eq. exact Hc1.
Qed.

Lemma run_worker_quiet E storage_dir job_id jobs url mt h ab sel rd c kind title :
  jobs !! job_id = Some (new_job_record job_id url mt h ab sel rd c) ->
  (forall u, u ∈ resolved_urls kind url sel -> item_succeeds E mt h u) -> env_probe E url = inr (kind, title) ->
  ws_items (run_worker E storage_dir job_id jobs) = enumerate_from 1 (resolved_urls kind url sel) /\
  field (ws_jobs (run_worker E storage_dir job_id jobs)) job_id "totalItems" =
    Some (PInt (Z.of_nat (length (resolved_urls kind url sel)))) /\
  field (ws_jobs (run_worker E storage_dir job_id jobs)) job_id "status" = Some (PStr "done").
Proof.
  intros Hj HE Hp.
  assert (Hf : forall k, field jobs job_id k = dict_get (new_job_record job_id url mt h ab sel rd c) k)
    by (intros k; unfold field; now rewrite Hj).
  unfold run_worker, _download_worker.
  do 4 (rewrite bind_job_get; cbn [ws_jobs]; rewrite Hf; cbn beta iota).
  set (s0 := {| ws_jobs := jobs; ws_items := []; ws_calls := [] |}).
  assert (Hc : field (ws_jobs s0) job_id "_cancel" = Some (PBool false)) by (cbn; rewrite Hf; reflexivity).
  assert (Hs : field (ws_jobs s0) job_id "selectedUrls" = Some (PStrList sel)) by (cbn; rewrite Hf; reflexivity).
  replace (dict_get (new_job_record job_id url mt h ab sel rd c) "url") with (Some (PStr url)) by reflexivity.
  replace (dict_get (new_job_record job_id url mt h ab sel rd c) "mediaType") with (Some (PStr mt)) by reflexivity.
  replace (dict_get (new_job_record job_id url mt h ab sel rd c) "rootDir") with (Some (PStr rd)) by reflexivity.
  cbn [as_str].
  match goal with
  | |- context [worker_body E job_id url mt ?hh rd] =>
      replace hh with h by (destruct h; reflexivity);
      destruct (quiet_worker_body E job_id url mt h rd kind title sel s0 HE Hp Hc Hs)
        as (s1 & Hw & Hi & Ht & Hst)
  end.
  rewrite (bind_catch_ok _ _ _ _ _ _ Hw). cbn beta.
  rewrite bind_job_get, Hst. cbn.
  split; [exact Hi|]. split; assumption.
Qed.

Lemma resolved_urls_selection kind url sel :
  kind = "playlist" -> sel <> [] -> resolved_urls kind url sel = sel.
Proof.
  intros -> Hs. unfold resolved_urls. rewrite String.eqb_refl.
  destruct sel; [congruence|reflexivity].
Qed.

Lemma resolved_urls_single kind url sel :
  kind <> "playlist" \/ sel = [] -> resolved_urls kind url sel = [url].
Proof.
  intros [Hk| ->]; unfold resolved_urls.
  - apply String.eqb_neq in Hk. now rewrite Hk.
  - destruct (kind =? "playlist"); reflexivity.
Qed.

(** ** C5: the items a job processes

    [ws_items] logs, at each iteration of [_download_urls], the pair
    ([currentItem], url) just written to the record.

    Claim C5: for a job created by [create_job] whose probe succeeds,
    with no cancellation and no unrecovered error (every item downloads
    at its first attempt, or after a format-unavailable failure at the
    fallback format), (a) on a playlist with a non-empty selection of k
    URLs the worker processes exactly those URLs in the selection's
    order with [currentItem] = 1..k, and sets [totalItems] to k; (b)
    when the source is not a playlist or the selection is empty it
    processes the single source URL as item 1 and sets [totalItems] to
    1.  In both cases the job ends [done]. *)
Theorem worker_processes_selection E storage_dir job_id jobs url mt h ab sel rd c kind title :
  jobs !! job_id = Some (new_job_record job_id url mt h ab sel rd c) ->
  (forall u, u ∈ resolved_urls kind url sel -> item_succeeds E mt h u) ->
  env_probe E url = inr (kind, title) ->
  (kind = "playlist" -> sel <> [] ->
     ws_items (run_worker E storage_dir job_id jobs) = enumerate_from 1 sel /\
     field (ws_jobs (run_worker E storage_dir job_id jobs)) job_id "totalItems" =
       Some (PInt (Z.of_nat (length sel)))) /\
  (kind <> "playlist" \/ sel = [] ->
     ws_items (run_worker E storage_dir job_id jobs) = [(1%Z, url)] /\
     field (ws_jobs (run_worker E storage_dir job_id jobs)) job_id "totalItems" = Some (PInt 1)) /\
  field (ws_jobs (run_worker E storage_dir job_id jobs)) job_id "status" = Some (PStr "done").
Proof.
  intros Hj HE Hp.
  destruct (run_worker_quiet E storage_dir job_id jobs url mt h ab sel rd c kind title Hj HE Hp)
    as (Hi & Ht & Hs).
  split; [|split; [|exact Hs]].
  - intros Hk Hsel. rewrite (resolved_urls_selection kind url sel Hk Hsel) in Hi, Ht. auto.
  - intros Hk. rewrite (resolved_urls_single kind url sel Hk) in Hi, Ht. auto.
Qed.

Lemma worker_processes_selection_witness :
  ws_items (run_worker env_playlist_720 "/app/storage" "j3" jobs_sel_720) =
    [(1%Z, "https://example/b"); (2%Z, "https://example/a")] /\
  field (ws_jobs (run_worker env_playlist_720 "/app/storage" "j3" jobs_sel_720)) "j3" "totalItems" =
    Some (PInt 2) /\
  field (ws_jobs (run_worker env_playlist_720 "/app/storage" "j3" jobs_sel_720)) "j3" "status" =
    Some (PStr "done").
Proof.
  assert (Hj : jobs_sel_720 !! "j3" = Some (new_job_record "j3" "https://example/list" "video" (Some 720%Z) None
                 ["https://example/b"; "https://example/a"] "/dl/Yt_videos" 0)) by reflexivity.
  assert (HE : forall u, u ∈ resolved_urls "playlist" "https://example/list" ["https://example/b"; "https://example/a"] ->
                 item_succeeds env_playlist_720 "video" (Some 720%Z) u).
  { intros u _. split; [vm_compute; reflexivity|]. right.
    exists "ERROR: [youtube] x: Requested format is not available".
    split; [vm_compute; reflexivity|]. split; [vm_compute; reflexivity|]. split; vm_compute; reflexivity. }
  assert (Hp : env_probe env_playlist_720 "https://example/list" = inr ("playlist", "Mix")) by reflexivity.
  destruct (worker_processes_selection env_playlist_720 "/app/storage" "j3" jobs_sel_720 _ _ _ _ _ _ _ _ _ Hj HE Hp)
    as (Hpl & _ & Hs).
  destruct (Hpl eq_refl ltac:(discriminate)) as [Hi Ht].
  split; [exact Hi|]. split; [exact Ht|exact Hs].
Defined.

(** ** The Staging Reconciler *)

Section ReconcilerProps.
Import Reconciler.

Lemma string_length_app (a b : string) : String.length (a +:+ b) = (String.length a + String.length b)%nat.
Proof. induction a; simpl; auto. Qed.

Lemma string_app_cancel_r (x y t : string) : x +:+ t = y +:+ t -> x = y.
Proof.
  revert y. induction x as [|a x IH]; intros [|b y] H; simpl in H.
  - reflexivity.
  - apply (f_equal String.length) in H. rewrite !string_length_app in H. simpl in H. exfalso; lia.
  - apply (f_equal String.length) in H. rewrite !string_length_app in H. simpl in H. exfalso; lia.
  - injection H as -> H. f_equal. now apply IH.
Qed.

Lemma candidate_name_inj base ext k1 k2 :
  candidate_name base ext k1 = candidate_name base ext k2 -> k1 = k2.
Proof.
  unfold candidate_name. intros H.
  apply String.app_inj in H. apply String.app_inj in H.
  apply string_app_cancel_r in H. now apply (inj pretty) in H.
Qed.

Lemma unique_loop_shape s d base ext fuel n :
  exists k, (n <= k)%N /\ unique_loop s d base ext fuel n = d ++ [candidate_name base ext k].
Proof.
  revert n. induction fuel as [|fuel IH]; intros n; simpl.
  - exists n. split; [lia|]. destruct (path_exists s _); reflexivity.
  - destruct (path_exists s _).
    + destruct (IH (n + 1)%N) as (k & Hk & ->). exists k. split; [lia|reflexivity].
    + exists n. split; [lia|reflexivity].
Qed.

Lemma unique_loop_all_exist s d base ext fuel n :
  path_exists s (unique_loop s d base ext fuel n) = true ->
  forall i, (i <= fuel)%nat -> path_exists s (d ++ [candidate_name base ext (n + N.of_nat i)]) = true.
Proof.
  revert n. induction fuel as [|fuel IH]; intros n H i Hi; simpl in H.
  - assert (i = 0%nat) by lia. subst i. rewrite N.add_0_r.
    assert (Hs : forall (b : bool) (x : path), (if b then x else x) = x) by (intros []; reflexivity).
    rewrite Hs in H. exact H.
  - destruct (path_exists s (d ++ [candidate_name base ext n])) eqn:E; [|congruence].
    destruct i as [|i].
    + rewrite N.add_0_r. exact E.
    + specialize (IH (n + 1)%N H i ltac:(lia)).
      replace (n + N.of_nat (S i))%N with (n + 1 + N.of_nat i)%N by lia. exact IH.
Qed.

Lemma unique_loop_fresh s d base ext n :
  path_exists s (unique_loop s d base ext (size (existing s)) n) = false.
Proof.
  destruct (path_exists s _) eqn:E; [|reflexivity]. exfalso.
  pose proof (unique_loop_all_exist s d base ext _ n E) as Hall.
  set (l := map (fun i => d ++ [candidate_name base ext (n + N.of_nat i)]) (seq 0 (S (size (existing s))))).
  assert (Hnd : NoDup l).
  { apply NoDup_fmap_2; [|apply NoDup_seq].
    intros i j Hij. apply app_inj_1 in Hij; [|reflexivity]. destruct Hij as [_ Hij].
    injection Hij as Hij. apply candidate_name_inj in Hij. lia. }
  assert (Hsub : list_to_set l ⊆ existing s).
  { intros p Hp. apply elem_of_list_to_set in Hp. subst l.
    apply list_elem_of_fmap in Hp. destruct Hp as (i & -> & Hi).
    apply elem_of_seq in Hi.
    specialize (Hall i ltac:(lia)). unfold path_exists in Hall. apply bool_decide_eq_true in Hall.
    exact Hall. }
  apply subseteq_size in Hsub. rewrite size_list_to_set in Hsub by exact Hnd.
  subst l. rewrite length_map, length_seq in Hsub. lia.
Qed.

Lemma unique_dst_fresh s d name : path_exists s (_unique_dst s d name) = false.
Proof.
  unfold _unique_dst. destruct (splitext name) as [base ext].
  destruct (path_exists s (d ++ [name])) eqn:E; [apply unique_loop_fresh|exact E].
Qed.

Lemma path_exists_false s p :
  path_exists s p = false -> fs_files s !! p = None /\ p ∉ fs_dirs s.
Proof.
  unfold path_exists. intros H. apply bool_decide_eq_false in H.
  rewrite elem_of_union, elem_of_dom in H. split.
  - destruct (fs_files s !! p) eqn:E; [|reflexivity]. exfalso. apply H. left. eauto.
  - intros Hd. apply H. right. exact Hd.
Qed.






Lemma unique_loop_least s d base ext fuel n :
  path_exists s (unique_loop s d base ext fuel n) = false ->
  exists k, (n <= k)%N /\ unique_loop s d base ext fuel n = d ++ [candidate_name base ext k] /\
    forall j, (n <= j < k)%N -> path_exists s (d ++ [candidate_name base ext j]) = true.
Proof.
  revert n. induction fuel as [|fuel IH]; intros n Hf; simpl in *.
  - exists n. assert (Hs : forall (b : bool) (x : path), (if b then x else x) = x) by (intros []; reflexivity).
    rewrite Hs. split; [lia|]. split; [reflexivity|]. intros j Hj. lia.
  - destruct (path_exists s (d ++ [candidate_name base ext n])) eqn:E.
    + destruct (IH (n + 1)%N Hf) as (k & Hk & Heq & Hall).
      exists k. split; [lia|]. split; [exact Heq|].
      intros j Hj. destruct (decide (j = n)) as [->|Hne]; [exact E|]. apply Hall. lia.
    + exists n. split; [lia|]. split; [reflexivity|]. intros j Hj. lia.
Qed.


Section Relocation.
Variables (w f : path) (s0 : fs).
Hypothesis Hwf : ~ w `prefix_of` f.





End Relocation.

Lemma walk_files_spec s w p :
  p ∈ walk_files s w <-> w `prefix_of` p /\ p <> w /\ is_Some (fs_files s !! p).
Proof.
  unfold walk_files. rewrite list_elem_of_filter.
  rewrite andb_True, negb_True, !bool_decide_spec.
  assert (Hm : p ∈ map fst (map_to_list (fs_files s)) <-> is_Some (fs_files s !! p)).
  { rewrite list_elem_of_fmap. split.
    - intros ([p' c] & -> & Hin). apply elem_of_map_to_list in Hin. cbn. eauto.
    - intros [c Hc]. exists (p, c). split; [reflexivity|]. now apply elem_of_map_to_list. }
  rewrite Hm. tauto.
Qed.



Lemma rmtree_files_other w t p :
  ~ w `prefix_of` p -> fs_files (rmtree w t) !! p = fs_files t !! p.
Proof.
  intros Hp. unfold rmtree. cbn [fs_files].
  destruct (fs_files t !! p) as [c|] eqn:E.
  - apply map_lookup_filter_Some. split; [exact E|]. cbn. rewrite negb_True, bool_decide_spec. exact Hp.
  - apply map_lookup_filter_None. now left.
Qed.




End ReconcilerProps.

(** ** The Path Resolver *)

Section PathResolverProps.
Import PathResolver.

Lemma string_prefix_app (a b : string) : String.prefix a (a +:+ b) = true.
Proof.
  induction a as [|c a IH]; simpl.
  - destruct b; reflexivity.
  - destruct (Ascii.ascii_dec c c); [exact IH|contradiction].
Qed.

Lemma string_prefix_empty s : String.prefix "" s = true.
Proof. destruct s; reflexivity. Qed.

Lemma split_first_slash_tail s name tail :
  split_first_slash s = (name, tail) -> tail = "" \/ String.prefix "/" tail = true.
Proof.
  revert name tail. induction s as [|c r IH]; intros name tail H; simpl in H.
  - injection H as _ <-. auto.
  - destruct (Ascii.eqb c "/") eqn:E.
    + injection H as _ <-. apply Ascii.eqb_eq in E. subst c. right. simpl. destruct (Ascii.ascii_dec "/" "/") as [_|Hn]; [apply string_prefix_empty|contradiction].
    + destruct (split_first_slash r) as [a b] eqn:Er. injection H as _ <-. eapply IH. reflexivity.
Qed.

Lemma expanduser_home O rest name tail :
  split_first_slash rest = (name, tail) ->
  (forall h, (if String.eqb name "" then Some (os_home O) else os_user_home O name) = Some h ->
     String.prefix (rstrip_slash h) (expanduser O (String "~" rest)) = true) /\
  ((if String.eqb name "" then Some (os_home O) else os_user_home O name) = None ->
     expanduser O (String "~" rest) = String "~" rest).
Proof.
  intros Hs. unfold expanduser. rewrite Hs. split.
  - intros h Hh. rewrite Hh.
    destruct (String.eqb (rstrip_slash h +:+ tail) "") eqn:E.
    + apply String.eqb_eq in E. destruct (rstrip_slash h); [reflexivity|discriminate].
    + apply string_prefix_app.
  - intros Hn. rewrite Hn. reflexivity.
Qed.

Lemma path_join_rel_prefix storage e :
  String.prefix "/" e = false -> String.prefix storage (path_join storage e) = true.
Proof.
  intros He. unfold path_join. rewrite He.
  destruct (String.eqb storage "") eqn:Es.
  - apply String.eqb_eq in Es. subst storage. destruct e; reflexivity.
  - destruct (String.eqb _ "/"); [apply string_prefix_app|].
    apply string_prefix_app.
Qed.

(** C9 (amended): for a non-empty user string [u] with
    [~]-expansion [e], an absolute [e] is used verbatim; a relative [e]
    is joined to the storage root lexically, so the result starts with
    the storage root's text but is not normalised; when the chosen root
    cannot be created the storage root is used if it can be created,
    and otherwise the exception propagates.  For [u = "~" ++ rest], split
    at the first slash of [rest] into a user name and a tail (empty or
    starting with a slash): when the home directory of that user (of
    the current user for an empty name) is known, [e] starts with it
    (trailing slashes removed); when it is not known, [e] is [u] itself,
    which is relative and joined under the storage root. *)
Theorem resolve_root_dir_user O storage vid aud u mt :
  u <> "" ->
  (isabs (expanduser O u) = true -> os_makedirs_ok O (expanduser O u) = true ->
     _resolve_root_dir O storage vid aud (Some u) mt = inr (expanduser O u)) /\
  (isabs (expanduser O u) = false -> os_makedirs_ok O (path_join storage (expanduser O u)) = true ->
     _resolve_root_dir O storage vid aud (Some u) mt = inr (path_join storage (expanduser O u)) /\
     String.prefix storage (path_join storage (expanduser O u)) = true) /\
  (os_makedirs_ok O (if isabs (expanduser O u) then expanduser O u
                     else path_join storage (expanduser O u)) = false ->
     _resolve_root_dir O storage vid aud (Some u) mt =
       if os_makedirs_ok O storage then inr storage else inl (OtherError "makedirs failed")) /\
  (forall rest name tail, u = String "~" rest -> split_first_slash rest = (name, tail) ->
     (tail = "" \/ String.prefix "/" tail = true) /\
     (forall h, (if String.eqb name "" then Some (os_home O) else os_user_home O name) = Some h ->
        String.prefix (rstrip_slash h) (expanduser O u) = true) /\
     ((if String.eqb name "" then Some (os_home O) else os_user_home O name) = None ->
        expanduser O u = u /\
        (os_makedirs_ok O (path_join storage u) = true ->
           _resolve_root_dir O storage vid aud (Some u) mt = inr (path_join storage u)))).
Proof.
  intros Hu. apply String.eqb_neq in Hu.
  unfold _resolve_root_dir. rewrite Hu. cbv zeta.
  split; [|split; [|split]].
  - intros Ha Hm. rewrite Ha, Hm. reflexivity.
  - intros Ha Hm. rewrite Ha, Hm. split; [reflexivity|]. apply path_join_rel_prefix. exact Ha.
  - intros Hm. rewrite Hm. reflexivity.
  - intros rest name tail -> Hs. destruct (expanduser_home O rest name tail Hs) as [Hk Hn].
    split; [eapply split_first_slash_tail; exact Hs|]. split; [exact Hk|].
    intros Hnone. specialize (Hn Hnone). split; [exact Hn|].
    intros Hm. rewrite Hn. change (isabs (String "~" rest)) with false. cbv iota. rewrite Hm. reflexivity.
Qed.

(** C9 (counterexample): the relative string ../../etc gives the
    root /app/storage/../../etc, which names /etc, outside the storage
    root; and when no directory can be created the resolver raises
    instead of falling back silently. *)
Lemma resolve_root_dir_escapes :
  _resolve_root_dir os_writable "/app/storage" "/dl/Yt_videos" "/dl/Yt_audios" (Some "../../etc") "video"
    = inr "/app/storage/../../etc" /\
  normpath_abs "/app/storage/../../etc" = "/etc" /\
  _resolve_root_dir os_readonly "/app/storage" "/dl/Yt_videos" "/dl/Yt_audios" (Some "media") "video"
    = inl (OtherError "makedirs failed").
Proof. split; [|split]; reflexivity. Qed.

Lemma resolve_root_dir_user_witness :
  _resolve_root_dir os_writable "/app/storage" "/dl/Yt_videos" "/dl/Yt_audios" (Some "../../etc") "video"
    = inr (path_join "/app/storage" "../../etc").
Proof.
  assert (Hu : "../../etc" <> "") by discriminate.
  destruct (resolve_root_dir_user os_writable "/app/storage" "/dl/Yt_videos" "/dl/Yt_audios" "../../etc" "video" Hu)
    as (_ & Hrel & _).
  apply Hrel; reflexivity.
Defined.

End PathResolverProps.

(** ** Further properties of the code *)

(** *** Probing: heights and playlist entries *)

Lemma insert_desc_elem x y l : x ∈ insert_desc y l <-> x = y \/ x ∈ l.
Proof.
  induction l as [|z r IH]; cbn [insert_desc].
  - rewrite list_elem_of_singleton, elem_of_nil. tauto.
  - destruct (z <? y)%Z eqn:E1; [rewrite elem_of_cons; tauto|].
    destruct (y =? z)%Z eqn:E2.
    + apply Z.eqb_eq in E2. subst. rewrite elem_of_cons. tauto.
    + rewrite !elem_of_cons, IH. tauto.
Qed.

Lemma insert_desc_sorted y l :
  StronglySorted Z.gt l -> StronglySorted Z.gt (insert_desc y l).
Proof.
  induction l as [|z r IH]; intros Hs; cbn [insert_desc].
  - repeat constructor.
  - apply StronglySorted_inv in Hs as [Hr Hz].
    destruct (z <? y)%Z eqn:E1.
    + apply Z.ltb_lt in E1. constructor; [constructor; assumption|].
      constructor; [lia|]. eapply Forall_impl; [exact Hz|]. intros a Ha. lia.
    + destruct (y =? z)%Z eqn:E2; [constructor; assumption|].
      apply Z.ltb_ge in E1. apply Z.eqb_neq in E2.
      constructor; [apply IH; exact Hr|].
      apply Forall_forall. intros a Ha. apply insert_desc_elem in Ha as [->|Ha]; [lia|].
      rewrite Forall_forall in Hz. apply Hz. exact Ha.
Qed.

Lemma sorted_set_desc_spec l :
  StronglySorted Z.gt (sorted_set_desc l) /\ forall x, x ∈ sorted_set_desc l <-> x ∈ l.
Proof.
  induction l as [|y r [IHs IHm]]; cbn [sorted_set_desc fold_right].
  - split; [constructor|]. intros x. split; intros H; inversion H.
  - fold (sorted_set_desc r). split; [now apply insert_desc_sorted|].
    intros x. rewrite insert_desc_elem, IHm, elem_of_cons. tauto.
Qed.

Lemma collect_heights_elem formats x :
  x ∈ collect_heights formats <-> exists f, f ∈ formats /\ format_height f = Some x.
Proof.
  induction formats as [|f r IH]; cbn [collect_heights].
  - split; [intros H; inversion H|]. intros (f & Hf & _). inversion Hf.
  - destruct (format_height f) as [h|] eqn:Ef.
    + rewrite elem_of_cons, IH. split.
      * intros [->|(g & Hg & Hh)]; [exists f; split; [left|exact Ef]|exists g; split; [right; exact Hg|exact Hh]].
      * intros (g & Hg & Hh). apply elem_of_cons in Hg as [->|Hg]; [left; congruence|right; eauto].
    + rewrite IH. split.
      * intros (g & Hg & Hh). exists g. split; [right; exact Hg|exact Hh].
      * intros (g & Hg & Hh). apply elem_of_cons in Hg as [->|Hg]; [congruence|eauto].
Qed.

(** X1: the list of heights is strictly decreasing (so without duplicates,
    its head the largest), and holds exactly the heights of the formats
    that have a video codec other than none and an integer height. *)
Theorem list_heights_sorted_exact formats :
  StronglySorted Z.gt (_list_heights_from_info formats) /\
  forall h, h ∈ _list_heights_from_info formats <->
    exists f, f ∈ formats /\ py_int (dict_get f "height") = Some h /\
      (exists v, dict_get f "vcodec" = Some v /\ py_truthy v = true /\ py_eq_str (Some v) "none" = false).
Proof.
  unfold _list_heights_from_info. destruct (sorted_set_desc_spec (collect_heights formats)) as [Hs Hm].
  split; [exact Hs|]. intros h. rewrite Hm, collect_heights_elem. unfold format_height.
  split.
  - intros (f & Hf & Hh). exists f. split; [exact Hf|].
    destruct (dict_get f "vcodec") as [v|]; [|discriminate].
    destruct (py_truthy v) eqn:Ev; [|discriminate]. destruct (py_eq_str (Some v) "none") eqn:En; [discriminate|].
    cbn in Hh. split; [exact Hh|]. eauto.
  - intros (f & Hf & Hh & v & Hv & Ht & Hn). exists f. split; [exact Hf|].
    rewrite Hv, Ht, Hn. exact Hh.
Qed.

Lemma playlist_entries_elem es : forall i o,
  o ∈ playlist_entries i es <->
  exists k e, es !! k = Some (Some e) /\ e <> [] /\ o = entry_record (i + Z.of_nat k) e.
Proof.
  induction es as [|e r IH]; intros i o; cbn [playlist_entries].
  - split; [intros H; inversion H|]. intros (k & e & Hk & _). rewrite lookup_nil in Hk. discriminate.
  - assert (Hr : (exists k e', r !! k = Some (Some e') /\ e' <> [] /\ o = entry_record (i + 1 + Z.of_nat k) e') <->
                 (exists k e', (e :: r) !! S k = Some (Some e') /\ e' <> [] /\ o = entry_record (i + Z.of_nat (S k)) e')).
    { split; intros (k & e' & Hk & Hne & Ho); exists k, e'; (split; [exact Hk|]); (split; [exact Hne|]);
        rewrite Ho; f_equal; lia. }
    assert (Hall : (exists k e', (e :: r) !! k = Some (Some e') /\ e' <> [] /\ o = entry_record (i + Z.of_nat k) e') <->
                   ((exists e', e = Some e' /\ e' <> [] /\ o = entry_record i e') \/
                    exists k e', (e :: r) !! S k = Some (Some e') /\ e' <> [] /\ o = entry_record (i + Z.of_nat (S k)) e')).
    { split.
      - intros ([|k] & e' & Hk & Hne & Ho).
        + left. exists e'. cbn in Hk. injection Hk as ->. rewrite Z.add_0_r in Ho. auto.
        + right. eauto.
      - intros [(e' & -> & Hne & Ho)|(k & e' & Hk)].
        + exists 0%nat, e'. rewrite Z.add_0_r. auto.
        + exists (S k), e'. exact Hk. }
    rewrite Hall, <- Hr.
    destruct e as [[|kv d]|].
    + rewrite IH. split; [intros H; right; exact H|]. intros [(e' & He & Hne & _)|H]; [|exact H].
      injection He as <-. congruence.
    + rewrite elem_of_cons, IH. split.
      * intros [->|H]; [left; exists (kv :: d); split; [reflexivity|]; split; [discriminate|reflexivity]|right; exact H].
      * intros [(e' & He & _ & ->)|H]; [injection He as <-; left; reflexivity|right; exact H].
    + rewrite IH. split; [intros H; right; exact H|]. intros [(e' & He & _)|H]; [discriminate|exact H].
Qed.

Lemma playlist_entries_sorted es : forall i,
  StronglySorted Z.lt (map entry_index (playlist_entries i es)).
Proof.
  induction es as [|e r IH]; intros i; cbn [playlist_entries].
  - constructor.
  - destruct e as [[|kv d]|]; try apply IH.
    cbn [map]. constructor; [apply IH|].
    apply Forall_forall. intros x Hx. apply list_elem_of_fmap in Hx as (o & -> & Ho).
    apply playlist_entries_elem in Ho as (k & e' & _ & _ & ->).
    cbn. lia.
Qed.

Lemma playlist_entries_length es : forall i,
  length (playlist_entries i es) = length (filter (fun e => entry_truthy e = true) es).
Proof.
  induction es as [|e r IH]; intros i; cbn [playlist_entries]; [reflexivity|].
  rewrite filter_cons. destruct e as [[|kv d]|]; cbn; rewrite ?IH; reflexivity.
Qed.

(** X2: the playlist entries [probe_url_meta] builds: one record per truthy
    element of [info["entries"]], whose index is its 1-based position
    there (skipped falsy elements still count); indexes strictly increase. *)
Theorem playlist_entries_spec (es : list (option pydict)) :
  (forall o, o ∈ playlist_entries 1 es <->
     exists k e, es !! k = Some (Some e) /\ e <> [] /\ o = entry_record (1 + Z.of_nat k) e) /\
  StronglySorted Z.lt (map entry_index (playlist_entries 1 es)) /\
  length (playlist_entries 1 es) = length (filter (fun e => entry_truthy e = true) es).
Proof.
  split; [intros o; apply playlist_entries_elem|].
  split; [apply playlist_entries_sorted|apply playlist_entries_length].
Qed.

(** *** Formatting helpers *)

Lemma strip_ansi_go_no_esc fuel s :
  char_in "027" s = false -> strip_ansi_go fuel s = s.
Proof.
  revert s. induction fuel as [|fuel IH]; intros s Hs; [reflexivity|].
  destruct s as [|c r]; [reflexivity|]. cbn [char_in] in Hs. apply orb_false_iff in Hs as [Hc Hr].
  cbn [strip_ansi_go]. rewrite Ascii.eqb_sym in Hc. rewrite Hc. f_equal. now apply IH.
Qed.

(** X3: [strip_ansi] leaves a string without an escape character
    unchanged. *)
Theorem strip_ansi_plain s :
  char_in "027" s = false -> strip_ansi (Some (PStr s)) = s.
Proof. intros H. unfold strip_ansi. now apply strip_ansi_go_no_esc. Qed.

Lemma strip_ansi_plain_witness :
  strip_ansi (Some (PStr "Video title")) = "Video title".
Proof. apply strip_ansi_plain. reflexivity. Defined.

Lemma sgr_tail_length s rest : sgr_tail s = Some rest -> (String.length rest < String.length s)%nat.
Proof.
  revert rest. induction s as [|c r IH]; intros rest H; cbn in H; [discriminate|].
  destruct (is_sgr_param c); [apply IH in H; cbn; lia|].
  destruct (Ascii.eqb c "m"); [injection H as <-; cbn; lia|discriminate].
Qed.

Lemma strip_ansi_go_fuel n : forall m s,
  (String.length s <= n)%nat -> (String.length s <= m)%nat -> strip_ansi_go n s = strip_ansi_go m s.
Proof.
  induction n as [|n IH]; intros m s Hn Hm.
  - destruct s; [destruct m; reflexivity|cbn in Hn; lia].
  - destruct m as [|m]; [destruct s; [reflexivity|cbn in Hm; lia]|].
    destruct s as [|c r]; [reflexivity|]. cbn in Hn, Hm. cbn [strip_ansi_go].
    assert (Hk : strip_ansi_go n r = strip_ansi_go m r) by (apply IH; lia).
    rewrite Hk. destruct (Ascii.eqb c "027"); [|reflexivity].
    destruct r as [|c' r']; [reflexivity|].
    destruct (Ascii.eqb c' "[") eqn:Eb.
    + apply Ascii.eqb_eq in Eb. subst c'.
      destruct (sgr_tail r') as [rest|] eqn:Et; [|reflexivity].
      apply sgr_tail_length in Et. cbn in Hn, Hm. apply IH; lia.
    + assert (Hne : c' <> "["%char) by (intros ->; discriminate).
      destruct c' as [b0 b1 b2 b3 b4 b5 b6 b7].
      destruct b0, b1, b2, b3, b4, b5, b6, b7; try reflexivity; exfalso; apply Hne; reflexivity.
Qed.


Lemma sgr_tail_params p t :
  all_sgr_params p = true -> sgr_tail (p +:+ "m" +:+ t) = Some t.
Proof.
  induction p as [|c r IH]; intros H; [reflexivity|].
  cbn [all_sgr_params] in H. apply andb_true_iff in H as [Hc Hr].
  change (String c r +:+ "m" +:+ t) with (String c (r +:+ "m" +:+ t)).
  cbn [sgr_tail]. rewrite Hc. apply IH. exact Hr.
Qed.

(** X4: a colour code [ESC [ params m] (params of digits and semicolons) at the
    front is removed, and the rest is processed as on its own. *)
Theorem strip_ansi_drops_sgr p t :
  all_sgr_params p = true ->
  strip_ansi (Some (PStr (String "027" (String "[" (p +:+ "m" +:+ t))))) = strip_ansi (Some (PStr t)).
Proof.
  intros Hp. unfold strip_ansi.
  set (x := p +:+ "m" +:+ t).
  change (String.length (String "027" (String "[" x))) with (S (S (String.length x))).
  assert (Hx : sgr_tail x = Some t) by (apply sgr_tail_params; exact Hp).
  assert (Hs : forall n, strip_ansi_go (S n) (String "027" (String "[" x)) = strip_ansi_go n t)
    by (intros n; cbn [strip_ansi_go]; rewrite Hx; reflexivity).
  rewrite Hs. subst x.
  apply strip_ansi_go_fuel; [|lia].
  rewrite !string_length_app. cbn. lia.
Qed.

Lemma strip_ansi_drops_sgr_witness :
  strip_ansi (Some (PStr (String "027" (String "[" ("0;94" +:+ "m" +:+ " 42.0%"))))) =
  strip_ansi (Some (PStr " 42.0%")).
Proof. apply strip_ansi_drops_sgr. reflexivity. Defined.

Lemma Qlt_bool_iff q r : Qlt_bool q r = true <-> (q < r)%Q.
Proof.
  unfold Qlt_bool. rewrite negb_true_iff. split.
  - intros H. apply Qnot_le_lt. intros Hle. apply Qle_bool_iff in Hle. congruence.
  - intros H. destruct (Qle_bool r q) eqn:E; [|reflexivity]. apply Qle_bool_iff in E.
    exfalso. apply (Qlt_not_le q r); assumption.
Qed.

Lemma Qlt_bool_false q r : Qlt_bool q r = false <-> (r <= q)%Q.
Proof.
  unfold Qlt_bool. rewrite negb_false_iff. apply Qle_bool_iff.
Qed.

Lemma inject_pow1024 k : inject_Z (1024 ^ Z.of_nat (S k)) == inject_Z (1024 ^ Z.of_nat k) * 1024.
Proof.
  change 1024%Q with (inject_Z 1024). rewrite <- inject_Z_mult.
  rewrite Nat2Z.inj_succ, Z.pow_succ_r by lia. rewrite Z.mul_comm. reflexivity.
Qed.

(** X5: [humanize_bytes n] prints [m] followed by the k-th unit of
    B, KiB, MiB, GiB, TiB, where [m * 1024^k = n]: the unit is the
    largest one (up to TiB) for which [m >= 1], so [m < 1024] except in
    TiB. *)
Theorem humanize_bytes_unit n :
  exists k m, (k <= 4)%nat /\ (m * inject_Z (1024 ^ Z.of_nat k) == n)%Q /\
    humanize_bytes n = fmt_fixed 2 m +:+ " " +:+ nth k ["B"; "KiB"; "MiB"; "GiB"; "TiB"] "" /\
    ((m < 1024)%Q \/ k = 4%nat) /\ (k = 0%nat \/ (1 <= m)%Q).
Proof.
  unfold humanize_bytes, humanize_bytes_go. cbn [String.eqb Ascii.eqb Bool.eqb andb orb].
  destruct (Qlt_bool n 1024) eqn:E0.
  { exists 0%nat, n. apply Qlt_bool_iff in E0.
    split; [lia|]. split; [change (inject_Z (1024 ^ Z.of_nat 0)) with (inject_Z 1); rewrite Qmult_1_r; reflexivity|]. split; [reflexivity|]. auto. }
  apply Qlt_bool_false in E0.
  destruct (Qlt_bool (n / 1024) 1024) eqn:E1.
  { exists 1%nat, (n / 1024)%Q. apply Qlt_bool_iff in E1.
    split; [lia|]. split; [rewrite !inject_pow1024; change (inject_Z (1024 ^ Z.of_nat 0)) with 1%Q; field|]. split; [reflexivity|]. split; [auto|].
    right. apply Qle_shift_div_l; [reflexivity|]. rewrite Qmult_1_l. exact E0. }
  apply Qlt_bool_false in E1.
  destruct (Qlt_bool (n / 1024 / 1024) 1024) eqn:E2.
  { exists 2%nat, (n / 1024 / 1024)%Q. apply Qlt_bool_iff in E2.
    split; [lia|]. split; [rewrite !inject_pow1024; change (inject_Z (1024 ^ Z.of_nat 0)) with 1%Q; field|]. split; [reflexivity|]. split; [auto|].
    right. apply Qle_shift_div_l; [reflexivity|]. rewrite Qmult_1_l. exact E1. }
  apply Qlt_bool_false in E2.
  destruct (Qlt_bool (n / 1024 / 1024 / 1024) 1024) eqn:E3.
  { exists 3%nat, (n / 1024 / 1024 / 1024)%Q. apply Qlt_bool_iff in E3.
    split; [lia|]. split; [rewrite !inject_pow1024; change (inject_Z (1024 ^ Z.of_nat 0)) with 1%Q; field|]. split; [reflexivity|]. split; [auto|].
    right. apply Qle_shift_div_l; [reflexivity|]. rewrite Qmult_1_l. exact E2. }
  apply Qlt_bool_false in E3.
  exists 4%nat, (n / 1024 / 1024 / 1024 / 1024)%Q.
  split; [lia|]. split; [rewrite !inject_pow1024; change (inject_Z (1024 ^ Z.of_nat 0)) with 1%Q; field|]. split; [destruct (Qlt_bool _ 1024); reflexivity|]. split; [auto|].
  right. apply Qle_shift_div_l; [reflexivity|]. rewrite Qmult_1_l. exact E3.
Qed.

(** X6: for a whole number of seconds [n >= 0], [humanize_seconds]
    splits [n] into hours, minutes below 60 and seconds below 60, and
    prints the hours only when nonzero and the minutes only when the
    hours or the minutes are nonzero. *)
Theorem humanize_seconds_exact n :
  (0 <= n)%Z ->
  exists h m s, (3600 * h + 60 * m + s = n)%Z /\ (0 <= h)%Z /\ (0 <= m < 60)%Z /\ (0 <= s < 60)%Z /\
    humanize_seconds (Some (PInt n)) =
      if negb (h =? 0)%Z then pretty h +:+ "h " +:+ pretty m +:+ "m " +:+ pretty s +:+ "s"
      else if negb (m =? 0)%Z then pretty m +:+ "m " +:+ pretty s +:+ "s"
      else pretty s +:+ "s".
Proof.
  intros Hn. exists (n / 3600)%Z, ((n mod 3600) / 60)%Z, (n mod 60)%Z.
  assert (H1 := Z.div_mod n 3600 ltac:(lia)).
  assert (H2 := Z.div_mod (n mod 3600) 60 ltac:(lia)).
  assert (H3 : (n mod 60 = (n mod 3600) mod 60)%Z).
  { symmetry. apply Z.mod_mod_divide. exists 60%Z. lia. }
  pose proof (Z.mod_pos_bound n 3600 ltac:(lia)). pose proof (Z.mod_pos_bound n 60 ltac:(lia)).
  split; [rewrite H3; lia|]. split; [apply Z.div_pos; lia|]. split.
  { split; [apply Z.div_pos; lia|]. apply Z.div_lt_upper_bound; lia. }
  split; [lia|].
  unfold humanize_seconds. cbn [py_num Qnum Qden inject_Z]. rewrite Z.quot_1_r, Z.max_r by exact Hn.
  reflexivity.
Qed.

Lemma humanize_seconds_exact_witness :
  exists h m s, (3600 * h + 60 * m + s = 3725)%Z /\ (0 <= h)%Z /\ (0 <= m < 60)%Z /\ (0 <= s < 60)%Z /\
    humanize_seconds (Some (PInt 3725)) =
      if negb (h =? 0)%Z then pretty h +:+ "h " +:+ pretty m +:+ "m " +:+ pretty s +:+ "s"
      else if negb (m =? 0)%Z then pretty m +:+ "m " +:+ pretty s +:+ "s"
      else pretty s +:+ "s".
Proof. apply (humanize_seconds_exact 3725). lia. Defined.

(** X7: a fractional number of seconds is truncated: a nonnegative one
    prints as its floor, and any value below 1 (negative ones included)
    prints as [0s]. *)
Theorem humanize_seconds_float q :
  ((0 <= q)%Q -> humanize_seconds (Some (PFloat q)) = humanize_seconds (Some (PInt (Qfloor q)))) /\
  ((q < 1)%Q -> humanize_seconds (Some (PFloat q)) = "0s").
Proof.
  destruct q as [a b]. unfold humanize_seconds. cbn [py_num Qnum Qden inject_Z Qfloor].
  rewrite Z.quot_1_r. split.
  - intros Hq. unfold Qle in Hq. cbn in Hq.
    rewrite Z.quot_div_nonneg by lia. reflexivity.
  - intros Hq. unfold Qlt in Hq. cbn in Hq.
    assert (Hz : Z.max 0 (a ÷ Z.pos b) = 0%Z).
    { destruct (Z.le_gt_cases 0 a).
      - rewrite Z.quot_div_nonneg by lia. apply Z.max_l.
        assert (a / Z.pos b < 1)%Z by (apply Z.div_lt_upper_bound; lia). lia.
      - apply Z.max_l.
        replace a with (- (- a))%Z by lia. rewrite Z.quot_opp_l by lia.
        rewrite Z.quot_div_nonneg by lia.
        assert (0 <= - a / Z.pos b)%Z by (apply Z.div_pos; lia). lia. }
    rewrite Hz. reflexivity.
Qed.

Lemma list_ascii_of_string_app (a b : string) :
  list_ascii_of_string (a +:+ b) = list_ascii_of_string a ++ list_ascii_of_string b.
Proof.
  induction a as [|c a IH]; [reflexivity|].
  change (String c a +:+ b) with (String c (a +:+ b)). simpl. rewrite IH. reflexivity.
Qed.

Lemma string_of_list_ascii_app (l l' : list ascii) :
  string_of_list_ascii (l ++ l') = string_of_list_ascii l +:+ string_of_list_ascii l'.
Proof. induction l as [|c l IH]; [reflexivity|]. simpl. rewrite IH. reflexivity. Qed.

Lemma string_rev_involutive s : string_rev (string_rev s) = s.
Proof.
  unfold string_rev. rewrite list_ascii_of_string_of_list_ascii, rev_involutive.
  apply string_of_list_ascii_of_string.
Qed.

Lemma string_rev_cons c r : string_rev (String c r) = string_rev r +:+ String c "".
Proof. unfold string_rev. cbn [list_ascii_of_string rev]. apply string_of_list_ascii_app. Qed.

Lemma string_rev_app (a b : string) : string_rev (a +:+ b) = string_rev b +:+ string_rev a.
Proof.
  unfold string_rev. rewrite list_ascii_of_string_app, rev_app_distr. apply string_of_list_ascii_app.
Qed.

Lemma lstrip_idem s : lstrip (lstrip s) = lstrip s.
Proof.
  induction s as [|c r IH]; simpl; [reflexivity|].
  destruct (py_isspace c) eqn:E; [exact IH|]. simpl. rewrite E. reflexivity.
Qed.

Lemma lstrip_app_fixed (x y : string) : lstrip y = y -> lstrip (x +:+ y) = lstrip x +:+ y.
Proof.
  intros Hy. induction x as [|a x IH]; [exact Hy|].
  change (String a x +:+ y) with (String a (x +:+ y)). simpl.
  destruct (py_isspace a); [exact IH|reflexivity].
Qed.

Lemma lstrip_length s : (String.length (lstrip s) <= String.length s)%nat.
Proof. induction s as [|c r IH]; simpl; [lia|]. destruct (py_isspace c); simpl; lia. Qed.

Lemma rstrip_cons_nonspace c r :
  py_isspace c = false -> rstrip (String c r) = String c (rstrip r).
Proof.
  intros Hc. unfold rstrip. rewrite string_rev_cons.
  rewrite lstrip_app_fixed by (simpl; rewrite Hc; reflexivity).
  rewrite string_rev_app. reflexivity.
Qed.

Lemma lstrip_rstrip_fixed t : lstrip t = t -> lstrip (rstrip t) = rstrip t.
Proof.
  destruct t as [|c r]; [reflexivity|]. intros Ht.
  destruct (py_isspace c) eqn:Hc.
  - exfalso. simpl in Ht. rewrite Hc in Ht.
    pose proof (lstrip_length r) as Hl. rewrite Ht in Hl. simpl in Hl. lia.
  - rewrite rstrip_cons_nonspace by exact Hc. simpl. rewrite Hc. reflexivity.
Qed.

Lemma rstrip_idem t : rstrip (rstrip t) = rstrip t.
Proof. unfold rstrip. rewrite string_rev_involutive, lstrip_idem. reflexivity. Qed.

Lemma py_strip_idem s : py_strip (py_strip s) = py_strip s.
Proof.
  unfold py_strip. rewrite lstrip_rstrip_fixed by apply lstrip_idem. apply rstrip_idem.
Qed.

Lemma sub_bad_runs_clean_id b s :
  (forall c, is_bad_char c = true -> char_in c s = false) -> sub_bad_runs b s = s.
Proof.
  revert b. induction s as [|c r IH]; intros b Hs; [reflexivity|]. simpl.
  destruct (is_bad_char c) eqn:Hc.
  - exfalso. specialize (Hs c Hc). simpl in Hs. rewrite Ascii.eqb_refl in Hs. discriminate.
  - f_equal. apply IH. intros c' Hc'. specialize (Hs c' Hc'). simpl in Hs.
    apply orb_false_iff in Hs. tauto.
Qed.

(** X8: [safe_folder] is idempotent: a name it produced is returned
    unchanged, so sanitizing a folder name twice does no harm. *)
Theorem safe_folder_idempotent (name : string) :
  safe_folder (safe_folder name) = safe_folder name.
Proof.
  remember (safe_folder name) as o eqn:Ho. unfold safe_folder in Ho.
  destruct (String.eqb (py_strip (sub_bad_runs false name)) "") eqn:E; subst o; [reflexivity|].
  unfold safe_folder.
  rewrite (sub_bad_runs_clean_id false (py_strip (sub_bad_runs false name))).
  - rewrite py_strip_idem, E. reflexivity.
  - intros c Hc. destruct (char_in c (py_strip (sub_bad_runs false name))) eqn:Hin; [|reflexivity].
    apply char_in_py_strip in Hin. now rewrite sub_bad_runs_clean in Hin.
Qed.

(** *** Progress callback and cancellation *)

Lemma dict_set_same (d : pydict) k v : dict_get d k = Some v -> dict_set d k v = d.
Proof.
  induction d as [|[k' v'] r IH]; simpl; [discriminate|].
  destruct (String.eqb k k') eqn:E.
  - intros H. injection H as ->. reflexivity.
  - intros H. f_equal. apply IH. exact H.
Qed.

Lemma not_hook_key_cancel : "_cancel" ∉ hook_keys.
Proof. intros H. apply list_elem_of_In in H. simpl in H. intuition discriminate. Qed.

Lemma progress_hook_raised job_id d (jobs : registry) :
  snd (progress_hook job_id d jobs) = cancel_truthy jobs job_id.
Proof.
  unfold progress_hook, cancel_truthy, field.
  destruct (jobs !! job_id) as [[|kv r]|] eqn:Hl; cbn [snd]; try reflexivity.
  destruct (hook_job (kv :: r) d) as [j' raised] eqn:Hh. cbn [snd].
  replace raised with (snd (hook_job (kv :: r) d)) by now rewrite Hh.
  rewrite hook_job_raised. unfold dict_get_truthy.
  rewrite hook_job_other by exact not_hook_key_cancel. reflexivity.
Qed.

Lemma progress_hook_other job_id d (jobs : registry) other :
  other <> job_id -> fst (progress_hook job_id d jobs) !! other = jobs !! other.
Proof.
  intros Ho. unfold progress_hook.
  destruct (jobs !! job_id) as [[|kv r]|] eqn:Hl; cbn [fst]; try reflexivity.
  destruct (hook_job (kv :: r) d) as [j' raised]. cbn [fst].
  rewrite lookup_insert_ne by congruence. reflexivity.
Qed.

(** X9: [progress_hook] raises exactly when the record's [_cancel] is
    truthy, never changes [_cancel] nor any key outside the six it
    writes, and leaves every other job untouched. *)
Theorem progress_hook_cancel_gate (job_id : string) (d : pydict) (jobs : registry) :
  snd (progress_hook job_id d jobs) = cancel_truthy jobs job_id /\
  (forall k, k ∉ hook_keys -> field (fst (progress_hook job_id d jobs)) job_id k = field jobs job_id k) /\
  (forall other, other <> job_id -> fst (progress_hook job_id d jobs) !! other = jobs !! other).
Proof.
  split; [apply progress_hook_raised|split].
  - intros k Hk. apply progress_hook_frame. exact Hk.
  - apply progress_hook_other.
Qed.

(** X10: calling [cancel_job] twice has the effect of calling it once: same
    result, same registry. *)
Theorem cancel_job_idempotent (job_id : string) (jobs : registry) :
  cancel_job job_id (snd (cancel_job job_id jobs)) = cancel_job job_id jobs.
Proof.
  unfold cancel_job at 2.
  destruct (jobs !! job_id) as [[|kv r]|] eqn:Hl; cbn [snd].
  - unfold cancel_job. rewrite Hl. reflexivity.
  - set (j := dict_set (dict_set (kv :: r) "_cancel" (PBool true)) "message" (PStr "Cancel requested…")).
    unfold cancel_job. rewrite lookup_insert_eq.
    assert (Hne : j <> []) by apply dict_set_nonempty.
    destruct j as [|kv' r'] eqn:Hj; [contradiction|]. rewrite <- Hj.
    rewrite (dict_set_same j "_cancel").
    2:{ subst j. rewrite dict_get_set_ne by discriminate. apply dict_get_set_eq. }
    rewrite (dict_set_same j "message") by (subst j; apply dict_get_set_eq).
    rewrite insert_insert_eq. rewrite Hl. reflexivity.
  - unfold cancel_job. rewrite Hl. reflexivity.
Qed.

(** X11: once [cancel_job] has succeeded, the record's [_cancel] is [True],
    so every later progress callback of that job raises
    [KeyboardInterrupt]. *)
Theorem cancel_then_hook_raises (job_id : string) (jobs : registry) :
  fst (cancel_job job_id jobs) = true ->
  field (snd (cancel_job job_id jobs)) job_id "_cancel" = Some (PBool true) /\
  forall d, snd (progress_hook job_id d (snd (cancel_job job_id jobs))) = true.
Proof.
  intros Hc.
  assert (Hf : field (snd (cancel_job job_id jobs)) job_id "_cancel" = Some (PBool true)).
  { revert Hc. unfold cancel_job, field.
    destruct (jobs !! job_id) as [[|kv r]|] eqn:Hl; cbn [fst snd]; try discriminate.
    intros _. rewrite lookup_insert_eq. rewrite dict_get_set_ne by discriminate. apply dict_get_set_eq. }
  split; [exact Hf|]. intros d.
  rewrite progress_hook_raised. unfold cancel_truthy. rewrite Hf. reflexivity.
Qed.

Lemma cancel_then_hook_raises_witness :
  fst (cancel_job "j1" jobs_one) = true /\
  snd (progress_hook "j1" ev_downloading (snd (cancel_job "j1" jobs_one))) = true.
Proof.
  assert (Hc : fst (cancel_job "j1" jobs_one) = true) by (vm_compute; reflexivity).
  split; [exact Hc|]. apply (proj2 (cancel_then_hook_raises "j1" jobs_one Hc)).
Defined.

Section U.
Import Reconciler.

(** X12: [_unique_dst] returns a path of [dst_dir] that does not exist: the
    file name itself when it is free, and otherwise
    [f"{base} ({k}){ext}"] for the least [k >= 1] whose path is free. *)
Theorem unique_dst_least (s : fs) (d : path) (name : string) :
  path_exists s (_unique_dst s d name) = false /\
  (path_exists s (d ++ [name]) = false -> _unique_dst s d name = d ++ [name]) /\
  (path_exists s (d ++ [name]) = true ->
   exists k, (1 <= k)%N /\
     _unique_dst s d name = d ++ [candidate_name (fst (splitext name)) (snd (splitext name)) k] /\
     forall j, (1 <= j < k)%N ->
       path_exists s (d ++ [candidate_name (fst (splitext name)) (snd (splitext name)) j]) = true).
Proof.
  split; [apply unique_dst_fresh|]. unfold _unique_dst.
  destruct (splitext name) as [base ext]. cbn [fst snd]. split.
  - intros E. rewrite E. reflexivity.
  - intros E. rewrite E. apply unique_loop_least. apply unique_loop_fresh.
Qed.

Lemma move_one_keeps_outside w f t src p c :
  w `prefix_of` src -> ~ w `prefix_of` p -> fs_files t !! p = Some c ->
  fs_files (move_one f t src) !! p = Some c /\
  (forall q, q ∈ fs_dirs t -> q ∈ fs_dirs (move_one f t src)).
Proof.
  intros Hs Hp Hc. unfold move_one.
  destruct (is_temp_name (last_component src)); [split; auto|].
  pose proof (unique_dst_fresh t f (last_component src)) as Hfr.
  set (dst := _unique_dst t f (last_component src)) in *.
  apply path_exists_false in Hfr as [Hnf _].
  assert (Hpd : p <> dst) by (intros ->; congruence).
  assert (Hps : p <> src) by (intros ->; contradiction).
  unfold move_file. cbn [fs_files fs_dirs makedirs].
  destruct (fs_files t !! src) as [c0|]; cbn [fs_files fs_dirs].
  - split.
    + rewrite lookup_insert_ne by congruence. rewrite lookup_delete_ne by congruence. exact Hc.
    + intros q Hq. set_solver.
  - split; [exact Hc|]. intros q Hq. set_solver.
Qed.

Lemma move_one_keeps_dirs f t src q :
  q ∈ fs_dirs t -> q ∈ fs_dirs (move_one f t src).
Proof.
  intros Hq. unfold move_one. destruct (is_temp_name _); [exact Hq|].
  unfold move_file. cbn [fs_files fs_dirs makedirs].
  destruct (fs_files t !! src); cbn; set_solver.
Qed.

Lemma fold_move_keeps_outside w f p c R : forall t,
  (forall q, q ∈ R -> w `prefix_of` q) -> ~ w `prefix_of` p -> fs_files t !! p = Some c ->
  fs_files (fold_left (move_one f) R t) !! p = Some c.
Proof.
  induction R as [|src R IH]; intros t HR Hp Hc; cbn [fold_left]; [exact Hc|].
  apply IH; [intros q Hq; apply HR, elem_of_cons; auto|exact Hp|].
  apply (move_one_keeps_outside w f t src p c); [apply HR, elem_of_cons; auto|exact Hp|exact Hc].
Qed.

Lemma fold_move_keeps_dirs f q R : forall t,
  q ∈ fs_dirs t -> q ∈ fs_dirs (fold_left (move_one f) R t).
Proof.
  induction R as [|src R IH]; intros t Hq; cbn [fold_left]; [exact Hq|].
  apply IH. apply move_one_keeps_dirs. exact Hq.
Qed.

(** X13: [_move_completed_to_final] never overwrites nor removes a file
    outside the staging directory, and never removes a directory
    outside it, whatever the final directory is. *)
Theorem move_completed_keeps_outside (w : path) (fd : option path) (s : fs) :
  (forall p c, ~ w `prefix_of` p -> fs_files s !! p = Some c ->
     fs_files (_move_completed_to_final (Some w) fd s) !! p = Some c) /\
  (forall q, ~ w `prefix_of` q -> q ∈ fs_dirs s ->
     q ∈ fs_dirs (_move_completed_to_final (Some w) fd s)).
Proof.
  unfold _move_completed_to_final. destruct fd as [f|]; [|split; auto].
  destruct (bool_decide (w ∈ fs_dirs s)); [|split; auto]. cbv zeta. split.
  - intros p c Hp Hc. rewrite rmtree_files_other by exact Hp.
    apply (fold_move_keeps_outside w); [|exact Hp|exact Hc].
    intros q Hq. apply walk_files_spec in Hq. tauto.
  - intros q Hp Hq. unfold rmtree. cbn [fs_dirs].
    apply elem_of_filter. split; [rewrite negb_True, bool_decide_spec; exact Hp|].
    apply fold_move_keeps_dirs. cbn. set_solver.
Qed.

End U.

Section R.
Import PathResolver.

(** X14: whatever root [_resolve_root_dir] returns could be created; with no
    user directory (absent or empty) it is the bucket of the media type
    (the video bucket for video, the audio bucket for any other) whenever
    that bucket can be created, and the storage root exactly when it
    cannot. *)
Theorem resolve_root_dir_creatable (O : os_env) (storage vid aud : string) (ud : option string)
    (mt r : string) :
  _resolve_root_dir O storage vid aud ud mt = inr r ->
  os_makedirs_ok O r = true /\
  ((ud = None \/ ud = Some "") ->
     (os_makedirs_ok O (if String.eqb mt "video" then vid else aud) = true ->
        r = (if String.eqb mt "video" then vid else aud)) /\
     (os_makedirs_ok O (if String.eqb mt "video" then vid else aud) = false -> r = storage)).
Proof.
  unfold _resolve_root_dir. intros H.
  assert (Hd : forall root, (if os_makedirs_ok O root then inr root
                else if os_makedirs_ok O storage then inr storage else inl (OtherError "makedirs failed")) = inr r ->
               os_makedirs_ok O r = true /\
               (os_makedirs_ok O root = true -> r = root) /\ (os_makedirs_ok O root = false -> r = storage)).
  { intros root Hr. destruct (os_makedirs_ok O root) eqn:E1.
    - injection Hr as <-. split; [exact E1|]. split; [reflexivity|discriminate].
    - destruct (os_makedirs_ok O storage) eqn:E2; [injection Hr as <-|discriminate].
      split; [exact E2|]. split; [discriminate|reflexivity]. }
  apply Hd in H as [Hok Hr]. split; [exact Hok|].
  intros [->| ->]; exact Hr.
Qed.

Lemma resolve_root_dir_creatable_witness :
  os_makedirs_ok os_writable "/dl/Yt_audios" = true /\ "/dl/Yt_audios" = "/dl/Yt_audios".
Proof.
  destruct (resolve_root_dir_creatable os_writable "/app/storage" "/dl/Yt_videos" "/dl/Yt_audios" None
              "audio" "/dl/Yt_audios" eq_refl) as [Hok Hr].
  split; [exact Hok|]. apply Hr; [left; reflexivity|reflexivity].
Defined.

End R.

(** *** The worker *)
Lemma worker_frame_refl job_id jobs : worker_frame job_id jobs jobs.
Proof. split; [auto|]. split; auto. Qed.

Lemma worker_frame_trans job_id j1 j2 j3 :
  worker_frame job_id j1 j2 -> worker_frame job_id j2 j3 -> worker_frame job_id j1 j3.
Proof.
  intros (A1 & B1 & C1) (A2 & B2 & C2). split; [|split].
  - intros k Hk. rewrite A2 by exact Hk. auto.
  - intros k Hk Hc. rewrite B2 by assumption. auto.
  - destruct C2 as [C2|C2]; [rewrite C2; exact C1|right; exact C2].
Qed.

Lemma kf_bind {A B} job_id (m : M A) (k : A -> M B) :
  keeps_frame job_id m -> (forall a, keeps_frame job_id (k a)) -> keeps_frame job_id (bind m k).
Proof.
  intros Hm Hk s. unfold bind. specialize (Hm s).
  destruct (m s) as [s' [e|a]]; simpl in *; [exact Hm|].
  eapply worker_frame_trans; [exact Hm|apply Hk].
Qed.

Lemma kf_catch {A} job_id (m : M A) (h : exn -> M A) :
  keeps_frame job_id m -> (forall e, keeps_frame job_id (h e)) -> keeps_frame job_id (catch m h).
Proof.
  intros Hm Hh s. unfold catch. specialize (Hm s).
  destruct (m s) as [s' [e|a]]; simpl in *; [|exact Hm].
  eapply worker_frame_trans; [exact Hm|apply Hh].
Qed.

Lemma kf_pure {A} job_id (m : M A) :
  (forall s, ws_jobs (fst (m s)) = ws_jobs s) -> keeps_frame job_id m.
Proof. intros H s. rewrite H. apply worker_frame_refl. Qed.

Lemma kf_job_set job_id k v : k ∈ worker_keys -> keeps_frame job_id (job_set job_id k v).
Proof.
  intros Hk s. cbn [fst job_set modify ws_jobs set_jobs]. split; [|split].
  - intros k' Hne. rewrite lookup_alter_ne by congruence. reflexivity.
  - intros k' Hk' _. apply field_alter_ne. intros ->. contradiction.
  - left. apply field_alter_ne. intros ->. apply list_elem_of_In in Hk. simpl in Hk. intuition discriminate.
Qed.

Lemma kf_run_actions job_id acts : keeps_frame job_id (run_actions job_id acts).
Proof.
  induction acts as [|[d|] r IH]; simpl.
  - apply kf_pure. reflexivity.
  - apply kf_bind.
    + intros s. cbn. destruct (progress_hook job_id d (ws_jobs s)) as [jobs raised] eqn:Hh.
      cbn. pose proof (progress_hook_frame job_id d (ws_jobs s)) as Hk.
      pose proof (progress_hook_other job_id d (ws_jobs s)) as Ho.
      rewrite Hh in Hk, Ho. cbn [fst] in Hk, Ho. split; [|split].
      * exact Ho.
      * intros k Hk' _. apply Hk. intros Hin. apply Hk'.
        apply list_elem_of_In in Hin. apply list_elem_of_In. simpl in *. tauto.
      * left. apply Hk. exact not_hook_key_cancel.
    + intros []; [apply kf_pure; reflexivity|exact IH].
  - apply kf_bind; [|intros _; exact IH].
    intros s. cbn. unfold cancel_job.
    destruct (ws_jobs s !! job_id) as [[|kv r']|] eqn:Hl; cbn [snd]; try apply worker_frame_refl.
    unfold field. split; [|split].
    + intros k Hk. rewrite lookup_insert_ne by congruence. reflexivity.
    + intros k Hk Hc. unfold field. rewrite lookup_insert_eq, Hl.
      rewrite dict_get_set_ne by (intros Heq; apply Hk; subst; in_list).
      rewrite dict_get_set_ne by congruence. reflexivity.
    + right. unfold field. rewrite lookup_insert_eq. rewrite dict_get_set_ne by discriminate. apply dict_get_set_eq.
Qed.

Lemma kf_ydl_download E job_id fmt url : keeps_frame job_id (ydl_download E job_id fmt url).
Proof.
  unfold ydl_download. apply kf_bind; [apply kf_pure; reflexivity|intros _].
  destruct (env_download E fmt url) as [acts out].
  apply kf_bind; [apply kf_run_actions|intros _].
  destruct out; apply kf_pure; reflexivity.
Qed.

Lemma kf_try_download_one E job_id url mt h : keeps_frame job_id (_try_download_one E job_id url mt h).
Proof.
  unfold _try_download_one. apply kf_catch; [apply kf_ydl_download|].
  intros []; try (apply kf_pure; reflexivity).
  destruct (str_contains _ _); [apply kf_ydl_download|apply kf_pure; reflexivity].
Qed.

Ltac frame_step :=
  match goal with
  | |- keeps_frame _ (bind _ _) => apply kf_bind; [|intros ?]
  | |- keeps_frame _ (catch _ _) => apply kf_catch; [|intros ?]
  | |- keeps_frame _ (ret _) => apply kf_pure; reflexivity
  | |- keeps_frame _ (raise _) => apply kf_pure; reflexivity
  | |- keeps_frame _ (job_get _ _) => apply kf_pure; reflexivity
  | |- keeps_frame _ (job_set _ _ _) => apply kf_job_set; in_list
  | |- keeps_frame _ (record_item _ _) => apply kf_pure; reflexivity
  | |- keeps_frame _ (_try_download_one _ _ _ _ _) => apply kf_try_download_one
  | |- keeps_frame _ (job_cancel_flag _) => unfold job_cancel_flag
  | |- keeps_frame _ (if ?b then _ else _) => destruct b
  | |- keeps_frame _ (match ?x with _ => _ end) => destruct x
  end.

Lemma kf_download_loop E job_id mt h total i urls :
  keeps_frame job_id (download_loop E job_id mt h total i urls).
Proof.
  revert i. induction urls as [|u r IH]; intros i; simpl.
  - apply kf_pure. reflexivity.
  - repeat frame_step. apply IH.
Qed.

(** X15: the worker of [job_id] leaves every other job of the registry as
    it was, changes no key of its own record outside the twelve it
    assigns and [_cancel], and can only leave [_cancel] as it was or set
    it to [True] (a concurrent cancellation): a cancellation is never
    undone. *)
Theorem worker_frame_run (E : env) (storage_dir job_id : string) (jobs : registry) :
  (forall other, other <> job_id -> ws_jobs (run_worker E storage_dir job_id jobs) !! other = jobs !! other) /\
  (forall k, k ∉ worker_keys -> k <> "_cancel" ->
     field (ws_jobs (run_worker E storage_dir job_id jobs)) job_id k = field jobs job_id k) /\
  (field (ws_jobs (run_worker E storage_dir job_id jobs)) job_id "_cancel" = field jobs job_id "_cancel" \/
   field (ws_jobs (run_worker E storage_dir job_id jobs)) job_id "_cancel" = Some (PBool true)).
Proof.
  unfold run_worker.
  assert (H : keeps_frame job_id (_download_worker E job_id storage_dir)).
  { unfold _download_worker, worker_body, worker_handler, _download_urls.
    repeat first [frame_step | apply kf_download_loop]. }
  exact (H {| ws_jobs := jobs; ws_items := []; ws_calls := [] |}).
Qed.

Lemma alter_some_insert (f : pydict -> pydict) (jobs : registry) job_id j :
  jobs !! job_id = Some j -> alter f job_id jobs = <[job_id := f j]> jobs.
Proof.
  intros Hj. apply map_eq. intros k. destruct (decide (k = job_id)) as [->|Hne].
  - rewrite lookup_alter_eq, lookup_insert_eq, Hj. reflexivity.
  - rewrite lookup_alter_ne, lookup_insert_ne by congruence. reflexivity.
Qed.

(** X16: when probing the job's url raises, the worker starts no download
    and records no item; it only sets [status] and [message] of its
    record as its [except] clauses and [finally] block say, and leaves
    the rest of the registry as it was. *)
Theorem worker_probe_failure (E : env) (storage_dir job_id : string) (jobs : registry)
    (j : pydict) (url : string) (e : exn) :
  jobs !! job_id = Some j ->
  dict_get j "url" = Some (PStr url) ->
  env_probe E url = inl e ->
  run_worker E storage_dir job_id jobs =
    {| ws_jobs := <[job_id := probe_failed_record j e]> jobs; ws_items := []; ws_calls := [] |}.
Proof.
  intros Hj Hu Hp. unfold run_worker, _download_worker.
  rewrite !bind_job_get. cbn [ws_jobs]. unfold field at 1. rewrite Hj, Hu. cbn [as_str].
  unfold bind at 1, catch, worker_body. rewrite Hp.
  destruct e as [|m|m];
    cbn [raise worker_handler bind job_set job_get modify gets set_jobs ws_jobs ws_items ws_calls fst snd ret];
    rewrite (alter_some_insert _ jobs job_id j Hj); rewrite ?alter_insert_eq, ?insert_insert_eq;
    unfold field; rewrite lookup_insert_eq; cbn [fmap option_fmap option_map];
    rewrite dict_get_set_ne by discriminate; rewrite dict_get_set_eq; cbn [py_eq_str String.eqb Ascii.eqb Bool.eqb];
    cbn [bind job_set modify set_jobs ws_jobs ws_items ws_calls fst snd ret];
    rewrite ?alter_insert_eq, ?insert_insert_eq; reflexivity.
Qed.


Lemma worker_probe_failure_witness :
  run_worker {| env_probe := fun _ => inl (DownloadError "unavailable");
                env_title := fun _ => None; env_download := fun _ _ => ([], DlOk) |}
    "/app/storage" "j1" jobs_one =
  {| ws_jobs := <[ "j1" := probe_failed_record
                   (new_job_record "j1" "https://example/video1" "video" None None [] "/dl/Yt_videos" 0)
                   (DownloadError "unavailable") ]> jobs_one; ws_items := []; ws_calls := [] |}.
Proof.
  apply worker_probe_failure with (url := "https://example/video1"); reflexivity.
Defined.























(** *** The event stream *)
Lemma sse_data_inj p q : sse_data p = sse_data q -> p = q.
Proof.
  unfold sse_data. intros H. apply String.app_inj in H. apply string_app_cancel_r in H. exact H.
Qed.

Lemma sse_error_not_data p : sse_error <> sse_data p.
Proof. discriminate. Qed.

Lemma no_repeat_from_app x l1 a b l2 :
  no_repeat_from x (l1 ++ a :: b :: l2) -> a <> b.
Proof.
  revert x. induction l1 as [|c l1 IH]; intros x H; cbn in H.
  - destruct H as (_ & Hb & _). intros ->. contradiction.
  - destruct H as [_ H]. exact (IH _ H).
Qed.

Lemma stream_gen_no_repeat_from dumps last polls :
  no_repeat_from (option_map sse_data last) (stream_gen dumps last polls).
Proof.
  revert last. induction polls as [|[[|kv r]|] polls IH]; intros last; cbn [stream_gen].
  - exact I.
  - split; [destruct last; [apply sse_error_not_data|exact I]|exact I].
  - set (p := dumps (kv :: r)).
    assert (Hhead : forall rest, no_repeat_from (Some (sse_data p)) rest ->
              no_repeat_from (option_map sse_data last)
                ((if match last with Some l => negb (String.eqb p l) | None => true end
                  then [sse_data p] else []) ++ rest)).
    { intros rest Hr. destruct last as [l|]; cbn [option_map].
      - destruct (String.eqb p l) eqn:E; cbn.
        + apply String.eqb_eq in E. subst l. exact Hr.
        + split; [|exact Hr]. intros Heq. apply sse_data_inj in Heq.
          apply String.eqb_neq in E. contradiction.
      - cbn. split; [exact I|exact Hr]. }
    destruct (dict_get (kv :: r) "status") as [v|].
    + destruct v as [|b|z|q|st|sl| |ng| ]; try (apply Hhead; exact (IH (Some p))).
      destruct (is_terminal st).
      * pose proof (Hhead [] I) as Hh; rewrite app_nil_r in Hh; exact Hh.
      * apply Hhead. exact (IH (Some p)).
    + pose proof (Hhead [] I) as Hh; rewrite app_nil_r in Hh; exact Hh.
  - split; [destruct last; [apply sse_error_not_data|exact I]|exact I].
Qed.

(** X18: [gen()] never sends the same event twice in a row: a snapshot is
    sent only when its JSON text differs from the previous one. *)
Theorem stream_no_repeat (dumps : pydict -> string) (polls : list (option pydict))
    (l1 l2 : list string) (a b : string) :
  stream_gen dumps None polls = l1 ++ a :: b :: l2 -> a <> b.
Proof.
  intros H. apply (no_repeat_from_app None l1 a b l2). rewrite <- H.
  exact (stream_gen_no_repeat_from dumps None polls).
Qed.

Lemma stream_gen_cut dumps last pre o post :
  ends_stream o = true ->
  stream_gen dumps last (pre ++ o :: post) = stream_gen dumps last (pre ++ [o]).
Proof.
  intros Ho. revert last. induction pre as [|[[|kv r]|] pre IH]; intros last; cbn [app stream_gen].
  - destruct o as [[|kv r]|]; try reflexivity. unfold ends_stream in Ho. cbn [stream_gen].
    destruct (dict_get (kv :: r) "status") as [[]|]; try discriminate; try reflexivity.
    rewrite Ho. reflexivity.
  - reflexivity.
  - destruct (dict_get (kv :: r) "status") as [[]|]; rewrite ?IH; reflexivity.
  - reflexivity.
Qed.

Lemma stream_out_step (last : option string) (acc : list string) (p : string) :
  match last with None => True | Some q => exists l0, acc = l0 ++ [sse_data q] end ->
  exists l0, acc ++ (if match last with Some l => negb (String.eqb p l) | None => true end
                     then [sse_data p] else []) = l0 ++ [sse_data p].
Proof.
  destruct last as [q|]; intros Hl.
  - destruct (String.eqb p q) eqn:E; cbn [negb].
    + apply String.eqb_eq in E. subst q. destruct Hl as (l0 & ->). exists l0. apply app_nil_r.
    + exists acc. reflexivity.
  - exists acc. reflexivity.
Qed.

Lemma stream_gen_final dumps o pre : forall last acc,
  Forall (fun o => ends_stream o = false) pre -> ends_stream o = true ->
  match last with None => True | Some p => exists l0, acc = l0 ++ [sse_data p] end ->
  exists l, acc ++ stream_gen dumps last (pre ++ [o]) = l ++ [final_event dumps o].
Proof.
  induction pre as [|o' pre IH]; intros last acc Hpre Ho Hl; cbn [app].
  - destruct o as [[|kv r]|]; cbn [stream_gen final_event]; [exists acc; reflexivity| |exists acc; reflexivity].
    unfold ends_stream in Ho.
    destruct (stream_out_step last acc (dumps (kv :: r)) Hl) as (l0 & Hl0).
    destruct (dict_get (kv :: r) "status") as [[| | | |st| | | | ]|]; try discriminate.
    + rewrite Ho. exists l0. exact Hl0.
    + exists l0. exact Hl0.
  - apply Forall_cons in Hpre as [Ho' Hpre].
    destruct o' as [[|kv r]|]; try discriminate. unfold ends_stream in Ho'. cbn [stream_gen].
    destruct (stream_out_step last acc (dumps (kv :: r)) Hl) as (l0 & Hl0).
    destruct (dict_get (kv :: r) "status") as [[| | | |st| | | | ]|]; try discriminate;
      try rewrite Ho'; rewrite app_assoc; apply IH; try assumption; exists l0; exact Hl0.
Qed.

(** X19: [gen()] reads no poll after the first one that ends it (the job is
    gone, or its status is missing or terminal), and its last event is
    that poll's: the error event when the job is gone, else the data
    event of that snapshot, sent again only if it differs from the
    previous one. *)
Theorem stream_ends_with_final (dumps : pydict -> string) (pre post : list (option pydict))
    (o : option pydict) :
  Forall (fun o => ends_stream o = false) pre -> ends_stream o = true ->
  stream_gen dumps None (pre ++ o :: post) = stream_gen dumps None (pre ++ [o]) /\
  exists l, stream_gen dumps None (pre ++ o :: post) = l ++ [final_event dumps o].
Proof.
  intros Hpre Ho. rewrite stream_gen_cut by exact Ho. split; [reflexivity|].
  exact (stream_gen_final dumps o pre None [] Hpre Ho I).
Qed.


Lemma stream_no_repeat_witness :
  sse_data "running" <> sse_data "done".
Proof.
  apply (stream_no_repeat (fun j => as_str (dict_get j "status"))
           [poll_status "running"; poll_status "running"; poll_status "done"] [] []).
  reflexivity.
Defined.

Lemma stream_ends_with_final_witness :
  exists l, stream_gen (fun j => as_str (dict_get j "status"))
              None ([poll_status "running"] ++ poll_status "done" :: [poll_status "running"])
            = l ++ [sse_data "done"].
Proof.
  apply (stream_ends_with_final (fun j => as_str (dict_get j "status")) [poll_status "running"]
           [poll_status "running"] (poll_status "done")).
  - repeat constructor.
  - reflexivity.
Defined.

(** ** Sample evaluations *)


Example safe_folder_ex1 : safe_folder "a/b::c?" = "a_b_c_".
Proof. reflexivity. Qed.
Example safe_folder_ex2 : safe_folder "  " = "Untitled".
Proof. reflexivity. Qed.
Example safe_folder_ex3 : safe_folder " |x| " = "_x_".
Proof. reflexivity. Qed.
Example format_ex : _format_string "video" (Some 720%Z) = "bv*[height=720]+ba/b[height=720]".
Proof. reflexivity. Qed.
Example fmt_ex1 : fmt_fixed 1 (1 # 3) = "0.3".
Proof. reflexivity. Qed.
Example fmt_ex2 : humanize_bytes 1536%Q = "1.50 KiB".
Proof. reflexivity. Qed.
Example fmt_ex3 : humanize_seconds (Some (PInt 3725)) = "1h 2m 5s".
Proof. reflexivity. Qed.
Example strip_ansi_ex : strip_ansi (Some (PStr (String "027" "[0;32m5.0MiB/s"))) = "5.0MiB/s".
Proof. reflexivity. Qed.